(** * Trusted Collaboration Tunnel edge worker: header pipeline and receipts

    A shallow embedding of [trusted-collab-worker.js] (the [fetch] handler
    and [hmacB64]) together with the platform primitives it calls: string
    methods, the regular expressions of the source, the [Headers] map, the
    text encoder, HMAC-SHA256 and [btoa].

    Strings are sequences of code units below U+0100 (the range of HTTP
    header bytes); every primitive is modelled on that range. *)

From Stdlib Require Import ZArith NArith Lia List Bool Ascii String.
From Stdlib Require Import DecimalString DecimalZ.
From stdpp Require Import base gmap strings.
Import ListNotations.
Local Open Scope string_scope.
#[local] Arguments String.append !_ _ / : simpl nomatch.

(** ** String primitives *)

Module JS.

(** WhiteSpace and LineTerminator code points of the range: TAB, LF, VT, FF,
    CR, SP and NBSP.  [String.prototype.trim], [parseInt] and the class
    [\s] all use this set. *)
Definition is_ws (c : ascii) : bool :=
  let n := N_of_ascii c in
  ((9 <=? n) && (n <=? 13) || (n =? 32) || (n =? 160))%N.

Definition is_digit (c : ascii) : bool :=
  let n := N_of_ascii c in ((48 <=? n) && (n <=? 57))%N.

(** [toLowerCase] on one code unit: A-Z and the Latin-1 capitals. *)
Definition lower_char (c : ascii) : ascii :=
  let n := N_of_ascii c in
  if ((65 <=? n) && (n <=? 90)
      || (192 <=? n) && (n <=? 222) && negb (n =? 215))%N
  then ascii_of_N (n + 32) else c.

(** [toUpperCase] on one code unit, as the case-insensitive flag of a
    regular expression canonicalises it: a code unit whose capital lies
    outside the range, or is more than one unit, stays as it is. *)
Definition canon_char (c : ascii) : ascii :=
  let n := N_of_ascii c in
  if ((97 <=? n) && (n <=? 122)
      || (224 <=? n) && (n <=? 254) && negb (n =? 247))%N
  then ascii_of_N (n - 32) else c.

Fixpoint toLowerCase (s : string) : string :=
  match s with
  | EmptyString => EmptyString
  | String c s' => String (lower_char c) (toLowerCase s')
  end.

Definition startsWith (s p : string) : bool := String.prefix p s.

(** [s.slice(n)] for [0 <= n]. *)
Fixpoint slice (n : nat) (s : string) : string :=
  match n, s with
  | O, _ => s
  | S n', String _ s' => slice n' s'
  | S _, EmptyString => EmptyString
  end.

Fixpoint trimStart (s : string) : string :=
  match s with
  | String c s' => if is_ws c then trimStart s' else s
  | EmptyString => EmptyString
  end.

Fixpoint trimEnd (s : string) : string :=
  match s with
  | EmptyString => EmptyString
  | String c s' =>
      match trimEnd s' with
      | EmptyString => if is_ws c then EmptyString else String c EmptyString
      | t => String c t
      end
  end.

Definition trim (s : string) : string := trimEnd (trimStart s).

(** [s.split(sep)] for a one-character separator. *)
Fixpoint split (sep : ascii) (s : string) : list string :=
  match s with
  | EmptyString => [EmptyString]
  | String c s' =>
      if Ascii.eqb c sep then EmptyString :: split sep s'
      else match split sep s' with
           | h :: t => String c h :: t
           | [] => [String c EmptyString]
           end
  end.

(** The character occurs in the string. *)
Fixpoint mentions (x : ascii) (s : string) : bool :=
  match s with
  | EmptyString => false
  | String c s' => Ascii.eqb c x || mentions x s'
  end.

(** Truthiness of a string value: the empty string is falsy. *)
Definition truthy (s : string) : bool := negb (String.eqb s "").

(** [Array.prototype.includes] on strings. *)
Definition includes (l : list string) (x : string) : bool :=
  existsb (String.eqb x) l.

(** [v || d] where [v] is a string or null/undefined. *)
Definition or_else (v : option string) (d : string) : string :=
  match v with
  | Some s => if truthy s then s else d
  | None => d
  end.

(** A possibly undefined value used as a condition. *)
Definition truthy_opt (v : option string) : bool :=
  match v with Some s => truthy s | None => false end.

(** Template-literal conversion of an integer-valued number.  Exact for
    magnitudes below 10^21, where the conversion is plain decimal. *)
Definition num_to_string (z : Z) : string :=
  NilZero.string_of_int (Z.to_int z).

Fixpoint digits_value (acc : Z) (s : string) : Z * string :=
  match s with
  | String c s' =>
      if is_digit c
      then digits_value (10 * acc + Z.of_N (N_of_ascii c) - 48)%Z s'
      else (acc, s)
  | EmptyString => (acc, s)
  end.

(** [parseInt(s, 10)]: skip leading white space, read an optional sign and
    the longest run of decimal digits; [None] stands for NaN.  The value is
    the mathematical integer, which is what the runtime yields up to 2^53. *)
Definition parseInt10 (s : string) : option Z :=
  let s1 := trimStart s in
  let '(neg, s2) :=
    match s1 with
    | String "-" r => (true, r)
    | String "+" r => (false, r)
    | _ => (false, s1)
    end in
  match s2 with
  | String c _ =>
      if is_digit c
      then let v := fst (digits_value 0 s2) in
           Some (if neg then (- v)%Z else v)
      else None
  | EmptyString => None
  end.

(** [n || 0] on a number: NaN and zero are falsy. *)
Definition num_or_zero (n : option Z) : Z :=
  match n with Some z => z | None => 0%Z end.

End JS.

(** ** Regular expressions

    The fragment of the pattern language the source uses: literal
    characters, the class [\s], [?], [*] on a single character or class,
    alternation, concatenation and the end anchor [$]; the flag [i]. *)

Module Regex.

Inductive atom : Type :=
| Lit (c : ascii)
| Space.

Inductive re : Type :=
| Eps
| One (a : atom)
| Many (a : atom)
| Eos
| Cat (r1 r2 : re)
| Alt (r1 r2 : re)
| Opt (r : re).

Definition atom_ok (icase : bool) (a : atom) (c : ascii) : bool :=
  match a with
  | Lit x =>
      if icase then Ascii.eqb (JS.canon_char c) (JS.canon_char x)
      else Ascii.eqb c x
  | Space => JS.is_ws c
  end.

(** Greedy [a*]: take characters while they fit, then back off one at a
    time until the continuation accepts. *)
Fixpoint many {A} (icase : bool) (a : atom) (s : string)
    (k : string -> option A) : option A :=
  match s with
  | String c s' =>
      if atom_ok icase a c
      then match many icase a s' k with
           | Some x => Some x
           | None => k s
           end
      else k s
  | EmptyString => k s
  end.

(** The backtracking matcher, anchored at the start of [s]; [k] receives
    the input left after the match. *)
Fixpoint run {A} (icase : bool) (r : re) (s : string)
    (k : string -> option A) : option A :=
  match r with
  | Eps => k s
  | One a =>
      match s with
      | String c s' => if atom_ok icase a c then k s' else None
      | EmptyString => None
      end
  | Many a => many icase a s k
  | Eos => match s with EmptyString => k s | String _ _ => None end
  | Cat r1 r2 => run icase r1 s (fun s1 => run icase r2 s1 k)
  | Alt r1 r2 =>
      match run icase r1 s k with
      | Some x => Some x
      | None => run icase r2 s k
      end
  | Opt r1 =>
      match run icase r1 s k with
      | Some x => Some x
      | None => k s
      end
  end.

(** The leftmost match: the text before it and the text after it. *)
Fixpoint search (icase : bool) (r : re) (s : string)
    : option (string * string) :=
  match run icase r s Some with
  | Some rest => Some (EmptyString, rest)
  | None =>
      match s with
      | String c s' =>
          match search icase r s' with
          | Some (pre, rest) => Some (String c pre, rest)
          | None => None
          end
      | EmptyString => None
      end
  end.

(** [re.test(s)] *)
Definition test (icase : bool) (r : re) (s : string) : bool :=
  match search icase r s with Some _ => true | None => false end.

(** [s.replace(re, repl)] without the flag [g]; [repl] has no [$] pattern. *)
Definition replace (icase : bool) (r : re) (repl s : string) : string :=
  match search icase r s with
  | Some (pre, rest) => pre ++ repl ++ rest
  | None => s
  end.

(** [s.replace(re, repl)] with the flag [g]: after a match the scan goes on
    behind it; after an empty match it steps over one character. *)
Fixpoint replace_all_from (fuel : nat) (icase : bool) (r : re)
    (repl s : string) : string :=
  match fuel with
  | O => s
  | S fuel' =>
      match run icase r s Some with
      | Some rest =>
          if Nat.ltb (String.length rest) (String.length s)
          then repl ++ replace_all_from fuel' icase r repl rest
          else match s with
               | String c s' =>
                   repl ++ String c (replace_all_from fuel' icase r repl s')
               | EmptyString => repl
               end
      | None =>
          match s with
          | String c s' => String c (replace_all_from fuel' icase r repl s')
          | EmptyString => EmptyString
          end
      end
  end.

Definition replace_all (icase : bool) (r : re) (repl s : string) : string :=
  replace_all_from (S (String.length s)) icase r repl s.



(** The pattern has no anchor. *)
Fixpoint anchor_free (r : re) : bool :=
  match r with
  | Eps | One _ | Many _ => true
  | Eos => false
  | Cat r1 r2 | Alt r1 r2 => anchor_free r1 && anchor_free r2
  | Opt r1 => anchor_free r1
  end.

(** A literal word. *)
Fixpoint word (s : string) : re :=
  match s with
  | EmptyString => Eps
  | String c EmptyString => One (Lit c)
  | String c s' => Cat (One (Lit c)) (word s')
  end.

End Regex.

(** ** The [Headers] object

    A header map sends the byte-lowercased name to the combined value: the
    values of one name joined by a comma and a space, which is what [get]
    reports.  Copying a [Headers] object keeps this map.  [set] and
    [append] are modelled on header text, the values for which they do not
    throw; [valid_value] marks that text. *)

Module Headers.

(** Header text: a value that holds no NUL, CR or LF.  [set] and [append]
    throw a TypeError on any other value.  The values of a [Headers] object
    are header text; a variable of the configuration need not be. *)
Definition valid_value (v : string) : bool :=
  negb (JS.mentions (ascii_of_nat 0) v
        || JS.mentions (ascii_of_nat 13) v
        || JS.mentions (ascii_of_nat 10) v).

Definition byte_lower (c : ascii) : ascii :=
  let n := N_of_ascii c in
  if ((65 <=? n) && (n <=? 90))%N then ascii_of_N (n + 32) else c.

Fixpoint lower (s : string) : string :=
  match s with
  | EmptyString => EmptyString
  | String c s' => String (byte_lower c) (lower s')
  end.

Definition get (name : string) (h : gmap string string) : option string :=
  h !! lower name.

Definition set (name value : string) (h : gmap string string)
    : gmap string string :=
  <[lower name := value]> h.

Definition delete (name : string) (h : gmap string string)
    : gmap string string :=
  base.delete (lower name) h.

Definition append (name value : string) (h : gmap string string)
    : gmap string string :=
  match h !! lower name with
  | Some old => <[lower name := old ++ ", " ++ value]> h
  | None => <[lower name := value]> h
  end.

(** The values of a name: the one combined value, or none. *)
Definition values (name : string) (h : gmap string string) : list string :=
  match get name h with
  | Some v => [v]
  | None => []
  end.

(** The combined value of the values of one name, in the order they were
    appended; no value, no header. *)
Fixpoint join (l : list string) : string :=
  match l with
  | [] => EmptyString
  | [x] => x
  | x :: r => x ++ ", " ++ join r
  end.

Definition combined (l : list string) : option string :=
  match l with
  | [] => None
  | _ :: _ => Some (join l)
  end.

End Headers.

(** ** Text encoding, SHA-256, HMAC and base64 *)

Module Crypto.

Local Open Scope list_scope.
Local Open Scope Z_scope.

(** [TextEncoder.encode]: UTF-8 of code units below U+0100. *)
Fixpoint utf8 (s : string) : list Z :=
  match s with
  | EmptyString => []
  | String c s' =>
      let n := Z.of_N (N_of_ascii c) in
      if n <? 128 then n :: utf8 s'
      else Z.lor 192 (Z.shiftr n 6) :: Z.lor 128 (Z.land n 63) :: utf8 s'
  end.

Definition w32 (x : Z) : Z := x mod 2 ^ 32.
Definition add32 (x y : Z) : Z := w32 (x + y).
Definition rotr (n x : Z) : Z :=
  w32 (Z.lor (Z.shiftr x n) (Z.shiftl x (32 - n))).
Definition Ch (x y z : Z) : Z :=
  Z.lxor (Z.land x y) (Z.land (Z.lnot x) z).
Definition Maj (x y z : Z) : Z :=
  Z.lxor (Z.lxor (Z.land x y) (Z.land x z)) (Z.land y z).
Definition Sigma0 (x : Z) : Z :=
  Z.lxor (Z.lxor (rotr 2 x) (rotr 13 x)) (rotr 22 x).
Definition Sigma1 (x : Z) : Z :=
  Z.lxor (Z.lxor (rotr 6 x) (rotr 11 x)) (rotr 25 x).
Definition sigma0 (x : Z) : Z :=
  Z.lxor (Z.lxor (rotr 7 x) (rotr 18 x)) (Z.shiftr x 3).
Definition sigma1 (x : Z) : Z :=
  Z.lxor (Z.lxor (rotr 17 x) (rotr 19 x)) (Z.shiftr x 10).

(** The round constants (the first 32 bits of the fractional parts of the
    cube roots of the first 64 primes) and the initial hash value (of the
    square roots of the first 8 primes), in decimal. *)
Definition K256 : list Z :=
  [
    1116352408; 1899447441; 3049323471; 3921009573; 961987163;
    1508970993; 2453635748; 2870763221; 3624381080; 310598401;
    607225278; 1426881987; 1925078388; 2162078206; 2614888103;
    3248222580; 3835390401; 4022224774; 264347078; 604807628;
    770255983; 1249150122; 1555081692; 1996064986; 2554220882;
    2821834349; 2952996808; 3210313671; 3336571891; 3584528711;
    113926993; 338241895; 666307205; 773529912; 1294757372;
    1396182291; 1695183700; 1986661051; 2177026350; 2456956037;
    2730485921; 2820302411; 3259730800; 3345764771; 3516065817;
    3600352804; 4094571909; 275423344; 430227734; 506948616;
    659060556; 883997877; 958139571; 1322822218; 1537002063;
    1747873779; 1955562222; 2024104815; 2227730452; 2361852424;
    2428436474; 2756734187; 3204031479; 3329325298
  ].

Definition H256 : list Z :=
  [
    1779033703; 3144134277; 1013904242; 2773480762;
    1359893119; 2600822924; 528734635; 1541459225
  ].

(** Message padding: the bit 1, zero bytes up to 56 modulo 64, and the bit
    length as a 64-bit big-endian integer. *)
Definition be_bytes (n : nat) (x : Z) : list Z :=
  map (fun i => Z.land (Z.shiftr x (8 * Z.of_nat i)) 255) (rev (seq 0 n)).

Definition pad (msg : list Z) : list Z :=
  let len := Z.of_nat (length msg) in
  msg ++ [128] ++ repeat 0 (Z.to_nat ((55 - len) mod 64))
      ++ be_bytes 8 (8 * len).

Fixpoint be_words (l : list Z) : list Z :=
  match l with
  | a :: b :: c :: d :: r =>
      Z.lor (Z.lor (Z.shiftl a 24) (Z.shiftl b 16)) (Z.lor (Z.shiftl c 8) d)
        :: be_words r
  | _ => []
  end.

(** The message schedule: sixteen words of the block, extended to 64. *)
Fixpoint extend (n : nat) (ws : list Z) : list Z :=
  match n with
  | O => ws
  | S n' =>
      let t := length ws in
      let x := add32 (add32 (sigma1 (nth (t - 2) ws 0)) (nth (t - 7) ws 0))
                     (add32 (sigma0 (nth (t - 15) ws 0)) (nth (t - 16) ws 0)) in
      extend n' (ws ++ [x])
  end.

Definition round (st : list Z) (kw : Z * Z) : list Z :=
  match st with
  | [a; b; c; d; e; f; g; h] =>
      let t1 := add32 (add32 (add32 h (Sigma1 e)) (add32 (Ch e f g) (fst kw)))
                      (snd kw) in
      let t2 := add32 (Sigma0 a) (Maj a b c) in
      [add32 t1 t2; a; b; c; add32 d t1; e; f; g]
  | _ => st
  end.

Definition compress (h : list Z) (block : list Z) : list Z :=
  let ws := extend 48 block in
  let st := fold_left round (combine K256 ws) h in
  map (fun p => add32 (fst p) (snd p)) (combine h st).

Fixpoint hash_blocks (n : nat) (h : list Z) (ws : list Z) : list Z :=
  match n with
  | O => h
  | S n' => hash_blocks n' (compress h (firstn 16 ws)) (skipn 16 ws)
  end.

Definition sha256 (msg : list Z) : list Z :=
  let ws := be_words (pad msg) in
  flat_map (be_bytes 4) (hash_blocks (length ws / 16) H256 ws).

(** HMAC with SHA-256 (block size 64): a longer key is hashed first, then
    the key is filled with zero bytes. *)
Definition hmac_sha256 (key msg : list Z) : list Z :=
  let k0 := if (64 <? Z.of_nat (length key)) then sha256 key else key in
  let k := k0 ++ repeat 0 (64 - length k0)%nat in
  let ipad := map (Z.lxor 0x36) k in
  let opad := map (Z.lxor 0x5c) k in
  sha256 (opad ++ sha256 (ipad ++ msg)).

(** [btoa] on the binary string of the bytes: base64 with the standard
    alphabet and [=] padding. *)
Definition b64_alphabet : string :=
  "ABCDEFGHIJKLMNOPQRSTUVWXYZabcdefghijklmnopqrstuvwxyz0123456789+/".

(** The characters of the standard alphabet and the padding sign. *)
Definition b64_text : string := (b64_alphabet ++ "=")%string.

Definition b64_char (i : Z) : ascii :=
  match String.get (Z.to_nat i) b64_alphabet with
  | Some c => c
  | None => "="%char
  end.

Fixpoint btoa (l : list Z) : string :=
  match l with
  | a :: b :: c :: r =>
      String (b64_char (Z.shiftr a 2))
        (String (b64_char (Z.lor (Z.shiftl (Z.land a 3) 4) (Z.shiftr b 4)))
          (String (b64_char (Z.lor (Z.shiftl (Z.land b 15) 2) (Z.shiftr c 6)))
            (String (b64_char (Z.land c 63)) (btoa r))))
  | [a; b] =>
      String (b64_char (Z.shiftr a 2))
        (String (b64_char (Z.lor (Z.shiftl (Z.land a 3) 4) (Z.shiftr b 4)))
          (String (b64_char (Z.shiftl (Z.land b 15) 2)) "="))
  | [a] =>
      String (b64_char (Z.shiftr a 2))
        (String (b64_char (Z.shiftl (Z.land a 3) 4)) "==")
  | [] => EmptyString
  end.

Fixpoint hex (l : list Z) : string :=
  match l with
  | [] => EmptyString
  | b :: r =>
      let d i := match String.get (Z.to_nat i) "0123456789abcdef" with
                 | Some c => c | None => "?"%char end in
      String (d (Z.shiftr b 4)) (String (d (Z.land b 15)) (hex r))
  end.

End Crypto.

(** ** The worker *)

Module Worker.

(** The request as the handler reads it: [request.url] parsed by [new URL]
    ([protocol] keeps its colon), and the header map.  The parts of a
    parsed URL and the values of a header map are header text. *)
Record Request : Type := {
  req_method : string;
  url_protocol : string;
  url_host : string;
  url_pathname : string;
  url_search : string;
  req_headers : gmap string string;
  req_body : string
}.

Record Response : Type := {
  status : Z;
  statusText : string;
  headers : gmap string string;
  body : string
}.

(** The bindings of [env]; an unset variable is [None]. *)
Record Env : Type := {
  AUTH_MODE : option string;
  API_KEYS : option string;
  TERMS_URL : option string;
  PRICING_URL : option string;
  RECEIPT_HMAC_KEY : option string;
  SITEMAP_PATH : option string;
  MANIFEST_PATH : option string
}.

(** What the handler gets from outside: the origin behind the global
    [fetch] ([None] when the call rejects) and the reading of
    [new Date().toISOString()]. *)
Record World : Type := {
  origin : Request -> option Response;
  clock : string
}.

(** The calls that leave the handler. *)
Inductive event : Type :=
| OriginFetch (r : Request)
| BufferBody.

(** A computation appends to the trace of calls and returns a value, or
    [None] when a promise it awaits rejects. *)
Definition M (A : Type) : Type := list event -> list event * option A.

Definition ret {A : Type} (a : A) : M A := fun tr => (tr, Some a).

Definition bind {A B : Type} (m : M A) (f : A -> M B) : M B :=
  fun tr =>
    match m tr with
    | (tr', Some a) => f a tr'
    | (tr', None) => (tr', None)
    end.

Notation "'await' x <- m 'in' k" := (bind m (fun x => k))
  (at level 10, x name, m at level 100, k at level 200).

(** [await fetch(request)] *)
Definition fetch_origin (w : World) (request : Request) : M Response :=
  fun tr => ((tr ++ [OriginFetch request])%list, origin w request).

(** [(await resp.clone().arrayBuffer()).byteLength] *)
Definition byteLength_of_body (resp : Response) : M Z :=
  fun tr => ((tr ++ [BufferBody])%list,
             Some (Z.of_nat (String.length (body resp)))).

(** The double quote as a one-character string. *)
Definition dq : string := String (ascii_of_nat 34) EmptyString.

Import Regex.

(** [/\/llm\/?$/] *)
Definition re_llm : re :=
  Cat (word "/llm") (Cat (Opt (One (Lit "/"))) Eos).

(** [/;\s*rel=\x22?canonical\x22?/i], writing the double quote as [\x22] *)
Definition re_canonical : re :=
  Cat (One (Lit ";")) (Cat (Many Space) (Cat (word "rel=")
    (Cat (Opt (word dq)) (Cat (word "canonical") (Opt (word dq)))))).

(** [/\/?llm\/?$/] *)
Definition re_strip : re :=
  Cat (Opt (One (Lit "/"))) (Cat (word "llm") (Cat (Opt (One (Lit "/"))) Eos)).

(** [/;\s*rel=\x22?terms/i] *)
Definition re_terms : re :=
  Cat (One (Lit ";")) (Cat (Many Space) (Cat (word "rel=")
    (Cat (Opt (word dq)) (word "terms")))).

(** [/;\s*rel=\x22?p(ricing|ayment)/i] *)
Definition re_pricing : re :=
  Cat (One (Lit ";")) (Cat (Many Space) (Cat (word "rel=")
    (Cat (Opt (word dq)) (Cat (One (Lit "p"))
      (Alt (word "ricing") (word "ayment")))))).

(** [/\r|\n/g] *)
Definition re_crlf : re :=
  Alt (One (Lit (ascii_of_nat 13))) (One (Lit (ascii_of_nat 10))).

(** [/\x22/g] *)
Definition re_quote : re := word dq.

Definition cache_control : string :=
  "max-age=0, must-revalidate, stale-while-revalidate=60, stale-if-error=86400, public".

(** The template [<uri>; rel=\x22relation\x22] *)
Definition link_entry (uri rel : string) : string :=
  "<" ++ uri ++ ">; rel=" ++ dq ++ rel ++ dq.

(** [new Response(text, {status, headers})]: a text body brings its
    Content-Type unless the headers name one. *)
Definition new_Response_text (text : string) (st : Z)
    (h : gmap string string) : Response :=
  {| status := st;
     statusText := "";
     headers := match Headers.get "Content-Type" h with
                | Some _ => h
                | None => Headers.append "Content-Type" "text/plain;charset=UTF-8" h
                end;
     body := text |}.

(** [new Response(resp.body, {status, statusText, headers})]; the status
    of an origin response is one the constructor accepts. *)
Definition new_Response (resp : Response) (h : gmap string string) : Response :=
  {| status := status resp;
     statusText := statusText resp;
     headers := h;
     body := body resp |}.

Definition unauthorized : Response :=
  new_Response_text "" 401
    (Headers.append "WWW-Authenticate" ("Bearer realm=" ++ dq ++ "tct" ++ dq) ∅).

Definition isLLMEndpoint (request : Request) : bool :=
  test false re_llm (url_pathname request).

Definition isSitemap (env : Env) (request : Request) : bool :=
  String.eqb (url_pathname request)
             (JS.or_else (SITEMAP_PATH env) "/llm-sitemap.json").

Definition isManifest (env : Env) (request : Request) : bool :=
  String.eqb (url_pathname request)
             (JS.or_else (MANIFEST_PATH env) "/llms.txt").

Definition api_key_mode (env : Env) : bool :=
  match AUTH_MODE env with
  | Some m => String.eqb m "api_key"
  | None => false
  end.

(** The constants of the guard: [auth], [xKey], [keys], [bearer], [ok]. *)
Definition auth (request : Request) : string :=
  JS.or_else (Headers.get "authorization" (req_headers request)) "".

Definition xKey (request : Request) : string :=
  JS.or_else (Headers.get "x-api-key" (req_headers request)) "".

Definition keys (env : Env) : list string :=
  List.filter JS.truthy (map JS.trim (JS.split "," (JS.or_else (API_KEYS env) ""))).

Definition bearer (request : Request) : string :=
  if JS.startsWith (JS.toLowerCase (auth request)) "bearer "
  then JS.slice 7 (auth request) else "".

Definition ok (env : Env) (request : Request) : bool :=
  (JS.truthy (bearer request) && JS.includes (keys env) (bearer request))
  || (JS.truthy (xKey request) && JS.includes (keys env) (xKey request)).

(** The guard closes the request: an LLM endpoint in API-key mode without
    an accepted credential. *)
Definition rejected (env : Env) (request : Request) : bool :=
  isLLMEndpoint request && api_key_mode env && negb (ok env request).

(** Cache headers of LLM endpoints, sitemap and manifest. *)
Definition normalize (h : gmap string string) : gmap string string :=
  Headers.delete "X-LiteSpeed-Cache-Control"
    (Headers.delete "Expires"
      (Headers.delete "Pragma"
        (Headers.set "Cache-Control" cache_control h))).

Definition cUrl (request : Request) : string :=
  let cPath := replace false re_strip "/" (url_pathname request) in
  url_protocol request ++ "//" ++ url_host request ++ cPath.

Definition inject_canonical (request : Request) (h : gmap string string)
    : gmap string string :=
  let link := JS.or_else (Headers.get "Link" h) "" in
  let hasCanonical := test true re_canonical link in
  if negb hasCanonical
  then Headers.append "Link" (link_entry (cUrl request) "canonical") h
  else h.

Definition inject_policy (env : Env) (h : gmap string string)
    : gmap string string :=
  let link := JS.or_else (Headers.get "Link" h) "" in
  let h1 :=
    if JS.truthy_opt (TERMS_URL env) && negb (test true re_terms link)
    then Headers.append "Link"
           (link_entry (JS.or_else (TERMS_URL env) "") "terms-of-service") h
    else h in
  if JS.truthy_opt (PRICING_URL env) && negb (test true re_pricing link)
  then Headers.append "Link"
         (link_entry (JS.or_else (PRICING_URL env) "") "payment") h1
  else h1.

(** The policy URLs of the configuration are header text: the two appends
    of [inject_policy] do not throw.  An unset URL is never appended. *)
Definition policy_urls_valid (env : Env) : bool :=
  Headers.valid_value (JS.or_else (TERMS_URL env) "")
  && Headers.valid_value (JS.or_else (PRICING_URL env) "").

(** [hmacB64(payload, key)] for a key that is not empty; [importKey]
    rejects an empty one.  The handler signs under a truthy key only. *)
Definition hmacB64 (payload key : string) : string :=
  Crypto.btoa (Crypto.hmac_sha256 (Crypto.utf8 key) (Crypto.utf8 payload)).

(** The [bytes] of the receipt. *)
Definition receipt_bytes (resp : Response) (h : gmap string string) : M Z :=
  if (status resp =? 304)%Z then ret 0%Z
  else if (status resp =? 200)%Z then
    match Headers.get "Content-Length" h with
    | Some cl =>
        if JS.truthy cl then ret (JS.num_or_zero (JS.parseInt10 cl))
        else byteLength_of_body resp
    | None => byteLength_of_body resp
    end
  else ret 0%Z.

Definition receipt_etag (h : gmap string string) : string :=
  JS.or_else (option_map (replace_all false re_crlf "") (Headers.get "ETag" h)) "".

Definition receipt_payload (contract : string) (st bytes : Z)
    (etag ts : string) : string :=
  "contract=" ++ contract ++ "; status=" ++ JS.num_to_string st
    ++ "; bytes=" ++ JS.num_to_string bytes
    ++ "; etag=" ++ dq ++ replace_all false re_quote "" etag ++ dq
    ++ "; ts=" ++ ts.

Definition sign_receipt (env : Env) (w : World) (request : Request)
    (resp : Response) (h : gmap string string) : M (gmap string string) :=
  await bytes <- receipt_bytes resp h in
  let etag := receipt_etag h in
  let contract := JS.or_else (Headers.get "X-AI-Contract" (req_headers request)) "" in
  let ts := clock w in
  let payload := receipt_payload contract (status resp) bytes etag ts in
  let sig := hmacB64 payload (JS.or_else (RECEIPT_HMAC_KEY env) "") in
  ret (Headers.set "AI-Usage-Receipt" (payload ++ "; sig=" ++ sig) h).

(** The two header stages that need no call: cache headers, then links. *)
Definition rewrite_headers (env : Env) (request : Request)
    (h : gmap string string) : gmap string string :=
  let h := if isLLMEndpoint request || isSitemap env request
              || isManifest env request
           then normalize h else h in
  if isLLMEndpoint request
  then inject_policy env (inject_canonical request h) else h.

(** The handler. *)
Definition fetch (env : Env) (w : World) (request : Request) : M Response :=
  if rejected env request then ret unauthorized
  else
    await resp <- fetch_origin w request in
    let h := rewrite_headers env request (headers resp) in
    await h <- (if isLLMEndpoint request && JS.truthy_opt (RECEIPT_HMAC_KEY env)
                then sign_receipt env w request resp h else ret h) in
    ret (new_Response resp h).

(** One invocation, from the empty trace. *)
Definition handle (env : Env) (w : World) (request : Request)
    : list event * option Response :=
  fetch env w request [].

(** The origin response of a request: the handler forwards the request,
    and the call returns [oresp]. *)
Definition origin_answers (env : Env) (w : World) (request : Request)
    (oresp : Response) : Prop :=
  In (OriginFetch request) (fst (handle env w request))
  /\ origin w request = Some oresp.

End Worker.

(** ** The wording of the specification, for comparison with the code *)

Module Spec.

Import Worker.

(** The Access Guard as the specification words it: either credential,
    trimmed, is an entry of the allow-list. *)
Definition accepts_trimmed (env : Env) (request : Request) : bool :=
  JS.includes (keys env) (JS.trim (bearer request))
  || JS.includes (keys env) (JS.trim (xKey request)).




(** A Link header value read as the specification defines a link relation:
    a list of entries, each a target in angle brackets with its set of
    relation types.  Entries are separated by commas and parameters by
    semicolons, both outside angle brackets and double quotes; the relation
    types of an entry are the words of its first [rel] parameter, compared
    in lower case. *)
Fixpoint split_outside (sep : ascii) (angle quote : bool) (s : string)
    : list string :=
  match s with
  | EmptyString => [EmptyString]
  | String c s' =>
      if Ascii.eqb c sep && negb angle && negb quote
      then EmptyString :: split_outside sep false false s'
      else
        let angle' :=
          if quote then angle
          else if Ascii.eqb c "<" then true
          else if Ascii.eqb c ">" then false else angle in
        let quote' :=
          if angle then quote
          else if Ascii.eqb c (ascii_of_nat 34) then negb quote else quote in
        match split_outside sep angle' quote' s' with
        | h :: t => String c h :: t
        | [] => [String c EmptyString]
        end
  end.

(** The text before the first separator and the text after it. *)
Fixpoint cut (sep : ascii) (s : string) : string * string :=
  match s with
  | EmptyString => (EmptyString, EmptyString)
  | String c s' =>
      if Ascii.eqb c sep then (EmptyString, s')
      else let '(a, b) := cut sep s' in (String c a, b)
  end.

(** A parameter value: a token, or the inside of a quoted string. *)
Definition unquote (v : string) : string :=
  match v with
  | String c r => if Ascii.eqb c (ascii_of_nat 34)
                  then fst (cut (ascii_of_nat 34) r) else v
  | EmptyString => v
  end.

Fixpoint first_rel (params : list string) : list string :=
  match params with
  | [] => []
  | p :: rest =>
      let '(name, value) := cut "=" p in
      if String.eqb (JS.toLowerCase (JS.trim name)) "rel"
      then List.filter JS.truthy
             (JS.split " " (JS.toLowerCase (unquote (JS.trim value))))
      else first_rel rest
  end.

Definition relation_types (entry : string) : list string :=
  first_rel (tl (split_outside ";" false false entry)).


End Spec.

(** ** Concrete requests, responses and configurations *)

Module Sample.

Import Worker.

Definition env_open : Env :=
  {| AUTH_MODE := None;
     API_KEYS := None;
     TERMS_URL := Some "https://example.com/ai-policy";
     PRICING_URL := Some "https://example.com/ai-pricing";
     RECEIPT_HMAC_KEY := Some "testkey";
     SITEMAP_PATH := None;
     MANIFEST_PATH := None |}.

Definition env_keyed : Env :=
  {| AUTH_MODE := Some "api_key";
     API_KEYS := Some "key1, key2";
     TERMS_URL := None;
     PRICING_URL := None;
     RECEIPT_HMAC_KEY := Some "testkey";
     SITEMAP_PATH := None;
     MANIFEST_PATH := None |}.

Definition get_request (path : string) (h : gmap string string) : Request :=
  {| req_method := "GET";
     url_protocol := "https:";
     url_host := "example.com";
     url_pathname := path;
     url_search := "";
     req_headers := h;
     req_body := "" |}.

Definition req_llm : Request :=
  get_request "/post/llm/" {[ "x-ai-contract" := "pilotX" ]}.

Definition req_llm_key1 : Request :=
  get_request "/post/llm" {[ "authorization" := "Bearer key1" ]}.

(** Two spaces after the scheme: the bearer credential is [" key1"]. *)
Definition req_llm_spaced : Request :=
  get_request "/post/llm/" {[ "authorization" := "Bearer  key1" ]}.


Definition req_sitemap : Request := get_request "/llm-sitemap.json" ∅.

Definition resp_200 : Response :=
  {| status := 200;
     statusText := "OK";
     headers := {[ "content-length" := "100";
                   "etag" := dq ++ "abc" ++ dq;
                   "cache-control" := "no-store";
                   "pragma" := "no-cache";
                   "expires" := "0" ]};
     body := "" |}.

Definition resp_304 : Response :=
  {| status := 304;
     statusText := "Not Modified";
     headers := {[ "content-length" := "100"; "etag" := dq ++ "abc" ++ dq ]};
     body := "" |}.


(** A Content-Length that is no integer, on a body of five bytes. *)
Definition resp_badlen : Response :=
  {| status := 200;
     statusText := "OK";
     headers := {[ "content-length" := "abc" ]};
     body := "hello" |}.

(** No Content-Length. *)
Definition resp_nolen : Response :=
  {| status := 200; statusText := "OK"; headers := ∅; body := "hello" |}.



Definition world_of (resp : Response) : World :=
  {| origin := fun _ => Some resp; clock := "2025-10-16T12:34:56.000Z" |}.

End Sample.

(** ** Closed forms the code is compared with *)

Module Reference.

(** The string without the characters that [bad] marks, the others in
    their order. *)
Fixpoint without (bad : ascii -> bool) (s : string) : string :=
  match s with
  | EmptyString => EmptyString
  | String c s' => if bad c then without bad s' else String c (without bad s')
  end.

(** Double quote, carriage return and line feed. *)
Definition quote_or_newline (c : ascii) : bool :=
  let n := N_of_ascii c in ((n =? 34) || (n =? 13) || (n =? 10))%N.

(** Every character is a comma or white space. *)
Fixpoint blank_list (s : string) : bool :=
  match s with
  | EmptyString => true
  | String c s' => (Ascii.eqb c "," || JS.is_ws c) && blank_list s'
  end.

End Reference.

(** ** Further requests, responses and configurations *)

Module Cases.

Import Worker.

(** API-key mode with nothing but separators in the allow-list. *)
Definition env_no_keys : Env :=
  {| AUTH_MODE := Some "api_key";
     API_KEYS := Some " , ,, ";
     TERMS_URL := None;
     PRICING_URL := None;
     RECEIPT_HMAC_KEY := None;
     SITEMAP_PATH := None;
     MANIFEST_PATH := None |}.


Definition req_llm_shout : Request :=
  Sample.get_request "/post/llm" {[ "authorization" := "BEARER key2" ]}.

Definition req_llm_xkey_padded : Request :=
  Sample.get_request "/post/llm" {[ "x-api-key" := "key1 " ]}.


(** An origin that cannot be reached. *)
Definition world_down : World :=
  {| origin := fun _ => None; clock := "2025-10-16T12:34:56.000Z" |}.

(** An origin response that brings a receipt of its own and a Vary
    header. *)
Definition resp_vary : Response :=
  {| status := 200;
     statusText := "OK";
     headers := {[ "content-length" := "4827";
                   "etag" := dq ++ "v1" ++ dq;
                   "vary" := "Accept";
                   "ai-usage-receipt" := "from-origin" ]};
     body := "" |}.



End Cases.

(** * Properties *)

(** ** Strings *)

Lemma append_assoc (a b c : string) : (a ++ b) ++ c = a ++ (b ++ c).
Proof. induction a as [|x a IH]; simpl; [reflexivity | now f_equal]. Qed.

Lemma append_nil_r (a : string) : a ++ "" = a.
Proof. induction a as [|x a IH]; simpl; [reflexivity | now f_equal]. Qed.

Lemma length_append (a b : string) :
  String.length (a ++ b) = (String.length a + String.length b)%nat.
Proof. induction a as [|x a IH]; simpl; [reflexivity | now f_equal]. Qed.

Lemma truthy_true (s : string) : JS.truthy s = true <-> s <> "".
Proof.
  unfold JS.truthy. destruct (String.eqb_spec s ""); simpl; split; congruence.
Qed.

Lemma includes_In (l : list string) (x : string) :
  JS.includes l x = true <-> In x l.
Proof.
  unfold JS.includes. rewrite existsb_exists. split.
  - intros (y & Hy & E). apply String.eqb_eq in E. now subst.
  - intros H. exists x. split; [assumption | apply String.eqb_refl].
Qed.

(** ** The header map *)

Lemma get_set (a b v : string) (h : gmap string string) :
  Headers.get a (Headers.set b v h) =
  if String.eqb (Headers.lower a) (Headers.lower b) then Some v
  else Headers.get a h.
Proof.
  unfold Headers.get, Headers.set.
  destruct (String.eqb_spec (Headers.lower a) (Headers.lower b)) as [E|E].
  - rewrite E. apply lookup_insert_eq.
  - apply lookup_insert_ne. congruence.
Qed.

Lemma get_delete (a b : string) (h : gmap string string) :
  Headers.get a (Headers.delete b h) =
  if String.eqb (Headers.lower a) (Headers.lower b) then None
  else Headers.get a h.
Proof.
  unfold Headers.get, Headers.delete.
  destruct (String.eqb_spec (Headers.lower a) (Headers.lower b)) as [E|E].
  - rewrite E. apply lookup_delete_eq.
  - apply lookup_delete_ne. congruence.
Qed.

Lemma get_append (a b v : string) (h : gmap string string) :
  Headers.get a (Headers.append b v h) =
  if String.eqb (Headers.lower a) (Headers.lower b)
  then Some match Headers.get b h with
            | Some old => old ++ ", " ++ v
            | None => v
            end
  else Headers.get a h.
Proof.
  unfold Headers.get, Headers.append.
  destruct (String.eqb_spec (Headers.lower a) (Headers.lower b)) as [E|E].
  - rewrite E. destruct (h !! Headers.lower b); apply lookup_insert_eq.
  - destruct (h !! Headers.lower b); apply lookup_insert_ne; congruence.
Qed.

(** Reading a header through the writes of the pipeline; the names are
    literals, so the name tests compute. *)
Ltac headers_simpl :=
  repeat (first [ rewrite get_set | rewrite get_delete | rewrite get_append ];
          match goal with
          | |- context [String.eqb (Headers.lower ?a) (Headers.lower ?b)] =>
              let t := eval vm_compute in
                         (String.eqb (Headers.lower a) (Headers.lower b)) in
              change (String.eqb (Headers.lower a) (Headers.lower b)) with t
          end; cbv iota).

Lemma get_append_other (a b v : string) (h : gmap string string) :
  Headers.lower a <> Headers.lower b ->
  Headers.get a (Headers.append b v h) = Headers.get a h.
Proof.
  intros N. rewrite get_append.
  destruct (String.eqb_spec (Headers.lower a) (Headers.lower b)); congruence.
Qed.

Lemma get_set_other (a b v : string) (h : gmap string string) :
  Headers.lower a <> Headers.lower b ->
  Headers.get a (Headers.set b v h) = Headers.get a h.
Proof.
  intros N. rewrite get_set.
  destruct (String.eqb_spec (Headers.lower a) (Headers.lower b)); congruence.
Qed.

(** ** Running the handler *)

Section Run.

Import Worker.

Variables (env : Env) (w : World) (request : Request).

Lemma handle_rejected :
  rejected env request = true -> handle env w request = ([], Some unauthorized).
Proof. intros R. unfold handle, fetch. now rewrite R. Qed.

Lemma handle_origin_rejects :
  rejected env request = false -> origin w request = None ->
  handle env w request = ([OriginFetch request], None).
Proof.
  intros R O. unfold handle, fetch, bind, fetch_origin. now rewrite R, O.
Qed.

Lemma handle_forwarded (oresp : Response) :
  rejected env request = false -> origin w request = Some oresp ->
  handle env w request =
  let h := rewrite_headers env request (headers oresp) in
  if isLLMEndpoint request && JS.truthy_opt (RECEIPT_HMAC_KEY env)
  then match sign_receipt env w request oresp h [OriginFetch request] with
       | (tr, Some h') => (tr, Some (new_Response oresp h'))
       | (tr, None) => (tr, None)
       end
  else ([OriginFetch request], Some (new_Response oresp h)).
Proof.
  intros R O. unfold handle, fetch, bind, fetch_origin. rewrite R, O. simpl.
  destruct (isLLMEndpoint request && JS.truthy_opt (RECEIPT_HMAC_KEY env));
    [ | reflexivity ].
  destruct (sign_receipt _ _ _ _ _ _) as [tr [h'|]]; reflexivity.
Qed.

(** The byte count never fails; only a 200 response can differ from zero
    or reach the body. *)
Lemma receipt_bytes_total (resp : Response) (h : gmap string string)
    (tr : list event) :
  exists evs b, receipt_bytes resp h tr = ((tr ++ evs)%list, Some b)
    /\ (status resp <> 200%Z -> b = 0%Z /\ evs = []).
Proof.
  unfold receipt_bytes, ret, byteLength_of_body.
  destruct (Z.eqb_spec (status resp) 304) as [E|E].
  { exists [], 0%Z. rewrite app_nil_r. auto. }
  destruct (Z.eqb_spec (status resp) 200) as [E2|E2].
  2:{ exists [], 0%Z. rewrite app_nil_r. auto. }
  destruct (Headers.get "Content-Length" h) as [cl|].
  - destruct (JS.truthy cl).
    + eexists [], _. rewrite app_nil_r. split; [reflexivity | congruence].
    + eexists [BufferBody], _. split; [reflexivity | congruence].
  - eexists [BufferBody], _. split; [reflexivity | congruence].
Qed.

Lemma sign_receipt_run (resp : Response) (h : gmap string string)
    (tr : list event) (b : Z) (evs : list event) :
  receipt_bytes resp h tr = ((tr ++ evs)%list, Some b) ->
  sign_receipt env w request resp h tr =
  ((tr ++ evs)%list,
   Some (Headers.set "AI-Usage-Receipt"
     (let payload :=
        receipt_payload
          (JS.or_else (Headers.get "X-AI-Contract" (req_headers request)) "")
          (status resp) b (receipt_etag h) (clock w) in
      payload ++ "; sig="
        ++ hmacB64 payload (JS.or_else (RECEIPT_HMAC_KEY env) "")) h)).
Proof. intros B. unfold sign_receipt, bind. rewrite B. reflexivity. Qed.

(** The link stage writes the Link header only. *)
Lemma get_inject_canonical (name : string) (h : gmap string string) :
  Headers.lower name <> "link" ->
  Headers.get name (inject_canonical request h) = Headers.get name h.
Proof.
  intros N. unfold inject_canonical.
  destruct (negb _); [ | reflexivity ].
  now apply get_append_other.
Qed.

Lemma get_inject_policy (name : string) (h : gmap string string) :
  Headers.lower name <> "link" ->
  Headers.get name (inject_policy env h) = Headers.get name h.
Proof.
  intros N. unfold inject_policy.
  destruct (_ && _); destruct (_ && _);
    rewrite ?get_append_other by assumption; reflexivity.
Qed.

End Run.

(** ** The Access Guard *)

Section Guard.

Import Worker.

Variables (env : Env) (w : World) (request : Request).

Lemma keys_truthy (x : string) : In x (keys env) -> JS.truthy x = true.
Proof. unfold keys. intros H. now apply filter_In in H. Qed.

Lemma ok_iff :
  ok env request = true <->
  In (bearer request) (keys env) \/ In (xKey request) (keys env).
Proof.
  unfold ok. rewrite orb_true_iff, !andb_true_iff, !includes_In. split.
  - intros [[_ H]|[_ H]]; auto.
  - intros [H|H]; [left|right]; (split; [now apply keys_truthy | assumption]).
Qed.

(** A request that passes the guard reaches the origin first. *)
Lemma handle_forwarded_trace :
  rejected env request = false ->
  exists tr r, handle env w request = (OriginFetch request :: tr, r).
Proof.
  intros R. destruct (origin w request) as [oresp|] eqn:O.
  - rewrite (handle_forwarded _ _ _ oresp R O). cbv zeta.
    destruct (_ && _).
    + destruct (receipt_bytes_total oresp
                  (rewrite_headers env request (headers oresp))
                  [OriginFetch request]) as (evs & b & B & _).
      rewrite (sign_receipt_run _ _ _ _ _ _ _ _ B). simpl. eauto.
    + eauto.
  - rewrite (handle_origin_rejects _ _ _ R O). eauto.
Qed.

Lemma origin_answers_iff (oresp : Response) :
  origin_answers env w request oresp <->
  rejected env request = false /\ origin w request = Some oresp.
Proof.
  unfold origin_answers. split; intros [H O]; (split; [ | exact O ]).
  - destruct (rejected env request) eqn:R; [ | reflexivity ].
    rewrite (handle_rejected _ _ _ R) in H. destruct H.
  - destruct (handle_forwarded_trace H) as (tr & r & E).
    rewrite E. now left.
Qed.

End Guard.

(** ** Claims on the guard and on unclassified paths *)

Import Worker.

(** C2, as amended.  On an LLM endpoint in API-key mode the handler closes
    the request with the 401 response, without a call, exactly when neither
    the bearer credential (what follows the first seven characters of an
    Authorization value that starts with "bearer " in any letter case) nor
    the X-API-Key value is, as presented and without trimming, an entry of
    the allow-list: API_KEYS split at commas, each entry trimmed, empty
    entries dropped.  Otherwise the request goes to the origin. *)
Theorem C2_guard_accepts_untrimmed_credentials
    (env : Env) (w : World) (request : Request) :
  isLLMEndpoint request = true ->
  AUTH_MODE env = Some "api_key" ->
  (rejected env request = false <->
     In (bearer request) (keys env) \/ In (xKey request) (keys env))
  /\ (handle env w request = ([], Some unauthorized) <->
        ~ (In (bearer request) (keys env) \/ In (xKey request) (keys env))).
Proof.
  intros L A.
  assert (R : rejected env request = negb (ok env request)).
  { unfold rejected, api_key_mode. now rewrite L, A. }
  assert (I : rejected env request = false <->
              In (bearer request) (keys env) \/ In (xKey request) (keys env)).
  { rewrite R, negb_false_iff. apply ok_iff. }
  split; [exact I | ]. split.
  - intros H Acc. apply I in Acc.
    destruct (handle_forwarded_trace env w request Acc) as (tr & r & E).
    congruence.
  - intros N. apply handle_rejected.
    destruct (rejected env request); [reflexivity | ].
    exfalso. apply N, I. reflexivity.
Qed.

Lemma C2_guard_accepts_untrimmed_credentials_witness :
  (rejected Sample.env_keyed Sample.req_llm_key1 = false <->
     In (bearer Sample.req_llm_key1) (keys Sample.env_keyed)
     \/ In (xKey Sample.req_llm_key1) (keys Sample.env_keyed))
  /\ (handle Sample.env_keyed (Sample.world_of Sample.resp_200)
        Sample.req_llm_key1 = ([], Some unauthorized) <->
      ~ (In (bearer Sample.req_llm_key1) (keys Sample.env_keyed)
         \/ In (xKey Sample.req_llm_key1) (keys Sample.env_keyed))).
Proof.
  apply (C2_guard_accepts_untrimmed_credentials Sample.env_keyed
           (Sample.world_of Sample.resp_200) Sample.req_llm_key1);
    reflexivity.
Defined.

(** C2 as stated fails: with API_KEYS "key1, key2" and the header
    Authorization "Bearer  key1" (two spaces) the trimmed bearer credential
    is the entry key1, yet the handler answers 401. *)
Lemma C2_counterexample :
  isLLMEndpoint Sample.req_llm_spaced = true
  /\ AUTH_MODE Sample.env_keyed = Some "api_key"
  /\ bearer Sample.req_llm_spaced = " key1"
  /\ keys Sample.env_keyed = ["key1"; "key2"]
  /\ Spec.accepts_trimmed Sample.env_keyed Sample.req_llm_spaced = true
  /\ handle Sample.env_keyed (Sample.world_of Sample.resp_200)
       Sample.req_llm_spaced = ([], Some unauthorized).
Proof. repeat split; vm_compute; reflexivity. Qed.

(** C3.  On an LLM endpoint in API-key mode, when neither credential is an
    allow-list entry, the handler returns status 401 with an empty body and
    WWW-Authenticate: Bearer realm=tct (the realm in double quotes), and the
    trace of calls is empty: the origin is not contacted.  No later stage
    runs: the response has no Cache-Control, Link or AI-Usage-Receipt. *)
Theorem C3_unauthorized_short_circuit
    (env : Env) (w : World) (request : Request) :
  isLLMEndpoint request = true ->
  AUTH_MODE env = Some "api_key" ->
  ~ In (bearer request) (keys env) ->
  ~ In (xKey request) (keys env) ->
  exists resp,
    handle env w request = ([], Some resp)
    /\ status resp = 401%Z
    /\ body resp = ""
    /\ Headers.get "WWW-Authenticate" (headers resp)
       = Some ("Bearer realm=" ++ dq ++ "tct" ++ dq)
    /\ Headers.get "Cache-Control" (headers resp) = None
    /\ Headers.get "Link" (headers resp) = None
    /\ Headers.get "AI-Usage-Receipt" (headers resp) = None.
Proof.
  intros L A Nb Nx. exists unauthorized.
  split; [ | repeat split; vm_compute; reflexivity ].
  apply handle_rejected. unfold rejected, api_key_mode. rewrite L, A. simpl.
  apply negb_true_iff. destruct (ok env request) eqn:O; [ | reflexivity ].
  apply ok_iff in O. tauto.
Qed.

Lemma C3_unauthorized_short_circuit_witness :
  exists resp,
    handle Sample.env_keyed (Sample.world_of Sample.resp_200) Sample.req_llm
      = ([], Some resp)
    /\ status resp = 401%Z
    /\ body resp = ""
    /\ Headers.get "WWW-Authenticate" (headers resp)
       = Some ("Bearer realm=" ++ dq ++ "tct" ++ dq)
    /\ Headers.get "Cache-Control" (headers resp) = None
    /\ Headers.get "Link" (headers resp) = None
    /\ Headers.get "AI-Usage-Receipt" (headers resp) = None.
Proof.
  apply (C3_unauthorized_short_circuit Sample.env_keyed
           (Sample.world_of Sample.resp_200) Sample.req_llm);
    try reflexivity; vm_compute; intuition discriminate.
Defined.



(** ** Cache headers *)


(** A header other than Link comes out of the link stage as [normalize]
    left it, or as the origin sent it on an unclassified path. *)
Lemma get_rewrite_headers (env : Env) (request : Request) (name : string)
    (h : gmap string string) :
  Headers.lower name <> "link" ->
  Headers.get name (rewrite_headers env request h) =
  Headers.get name
    (if isLLMEndpoint request || isSitemap env request || isManifest env request
     then normalize h else h).
Proof.
  intros N. unfold rewrite_headers.
  destruct (isLLMEndpoint request); [ | reflexivity ].
  now rewrite get_inject_policy, get_inject_canonical.
Qed.




(** ** The shape of a signature *)

Section Signature.

Import Crypto.

Lemma length_round (st : list Z) (kw : Z * Z) :
  length (round st kw) = length st.
Proof.
  unfold round.
  destruct st as [|a [|b [|c [|d [|e [|f [|g [|h [|i st]]]]]]]]]; reflexivity.
Qed.

Lemma length_rounds (l : list (Z * Z)) (st : list Z) :
  length (fold_left round l st) = length st.
Proof.
  revert st. induction l as [|kw l IH]; intros st; simpl; [reflexivity | ].
  now rewrite IH, length_round.
Qed.

Lemma length_compress (h block : list Z) :
  length (compress h block) = length h.
Proof.
  unfold compress.
  rewrite List.length_map, List.length_combine, length_rounds. lia.
Qed.

Lemma length_hash_blocks (n : nat) (h ws : list Z) :
  length (hash_blocks n h ws) = length h.
Proof.
  revert h ws. induction n as [|n IH]; intros h ws; simpl; [reflexivity | ].
  now rewrite IH, length_compress.
Qed.

Lemma length_be_bytes (n : nat) (x : Z) : length (be_bytes n x) = n.
Proof.
  unfold be_bytes.
  now rewrite List.length_map, List.length_rev, List.length_seq.
Qed.

(** A digest has 32 bytes. *)
Lemma length_sha256 (msg : list Z) : length (sha256 msg) = 32%nat.
Proof.
  unfold sha256.
  generalize (hash_blocks (length (be_words (pad msg)) / 16) H256
                (be_words (pad msg))),
    (length_hash_blocks (length (be_words (pad msg)) / 16) H256
       (be_words (pad msg))).
  intros l Hl. change (length H256) with 8%nat in Hl.
  destruct l as [|a [|b [|c [|d [|e [|f [|g [|h [|i l]]]]]]]]];
    try discriminate Hl.
  reflexivity.
Qed.

Lemma length_hmac_sha256 (key msg : list Z) :
  length (hmac_sha256 key msg) = 32%nat.
Proof. unfold hmac_sha256. apply length_sha256. Qed.

Lemma list3_ind (P : list Z -> Prop) :
  P [] -> (forall a, P [a]) -> (forall a b, P [a; b]) ->
  (forall a b c r, P r -> P (a :: b :: c :: r)) ->
  forall l, P l.
Proof.
  intros P0 P1 P2 P3 l.
  assert (H : P l /\ (forall a, P (a :: l)) /\ (forall a b, P (a :: b :: l))).
  { induction l as [|x l (IH0 & IH1 & IH2)]; auto. }
  apply H.
Qed.

(** Base64 with padding: four characters for every three bytes begun. *)
Lemma length_btoa (l : list Z) :
  String.length (btoa l) = (4 * ((length l + 2) / 3))%nat.
Proof.
  induction l as [ | a | a b | a b c r IH ] using list3_ind;
    try reflexivity.
  change (String.length (btoa (a :: b :: c :: r)))
    with (4 + String.length (btoa r))%nat.
  rewrite IH.
  replace (length (a :: b :: c :: r) + 2)%nat
    with (1 * 3 + (length r + 2))%nat by (simpl; lia).
  rewrite Nat.div_add_l by discriminate. lia.
Qed.

Lemma get_mentions (n : nat) (s : string) (c : ascii) :
  String.get n s = Some c -> JS.mentions c s = true.
Proof.
  revert n. induction s as [|x s IH]; intros n; [destruct n; discriminate | ].
  destruct n as [|n]; simpl.
  - intros E. inversion E; subst. now rewrite Ascii.eqb_refl.
  - intros E. rewrite (IH n E). apply orb_true_r.
Qed.

Lemma b64_char_standard (i : Z) : JS.mentions (b64_char i) b64_text = true.
Proof.
  unfold b64_char.
  destruct (String.get (Z.to_nat i) b64_alphabet) as [c|] eqn:E;
    [ | reflexivity ].
  apply get_mentions in E. revert E. unfold b64_text.
  generalize b64_alphabet. intros s.
  induction s as [|x s IH]; simpl; [discriminate | ].
  destruct (Ascii.eqb x c); simpl; auto.
Qed.

Lemma standard_cons (i : Z) (s : string) :
  (forall c, JS.mentions c s = true -> JS.mentions c b64_text = true) ->
  forall c, JS.mentions c (String (b64_char i) s) = true ->
            JS.mentions c b64_text = true.
Proof.
  intros H c. cbn [JS.mentions]. intros M.
  apply orb_true_iff in M as [E|M]; [ | now apply H ].
  apply Ascii.eqb_eq in E. subst c. apply b64_char_standard.
Qed.

Lemma standard_pad (s : string) :
  (forall c, JS.mentions c s = true -> JS.mentions c b64_text = true) ->
  forall c, JS.mentions c (String "=" s) = true ->
            JS.mentions c b64_text = true.
Proof.
  intros H c. cbn [JS.mentions]. intros M.
  apply orb_true_iff in M as [E|M]; [ | now apply H ].
  apply Ascii.eqb_eq in E. subst c. reflexivity.
Qed.

(** Nothing but the standard alphabet and the padding sign. *)
Lemma btoa_standard (l : list Z) (c : ascii) :
  JS.mentions c (btoa l) = true -> JS.mentions c b64_text = true.
Proof.
  revert c.
  induction l as [ | a | a b | a b x r IH ] using list3_ind; cbn [btoa].
  - discriminate.
  - do 2 apply standard_cons. do 2 apply standard_pad. discriminate.
  - do 3 apply standard_cons. apply standard_pad. discriminate.
  - do 4 apply standard_cons. exact IH.
Qed.

End Signature.

(** ** The usage receipt *)

Section Receipt.

Variables (env : Env) (w : World) (request : Request) (oresp : Response).
Variable key : string.

Hypothesis llm : isLLMEndpoint request = true.
Hypothesis key_set : RECEIPT_HMAC_KEY env = Some key.
Hypothesis key_truthy : key <> "".

(** The signer reads Content-Length and ETag as the origin sent them. *)
Lemma get_rewritten_content_length :
  Headers.get "Content-Length" (rewrite_headers env request (headers oresp))
  = Headers.get "Content-Length" (headers oresp).
Proof.
  rewrite get_rewrite_headers by (vm_compute; discriminate).
  rewrite llm. simpl. unfold normalize. now headers_simpl.
Qed.

Lemma receipt_etag_rewritten :
  receipt_etag (rewrite_headers env request (headers oresp))
  = receipt_etag (headers oresp).
Proof.
  unfold receipt_etag.
  rewrite get_rewrite_headers by (vm_compute; discriminate).
  rewrite llm. simpl. unfold normalize. now headers_simpl.
Qed.

Lemma receipt_bytes_rewritten (tr : list event) :
  receipt_bytes oresp (rewrite_headers env request (headers oresp)) tr
  = receipt_bytes oresp (headers oresp) tr.
Proof. unfold receipt_bytes. now rewrite get_rewritten_content_length. Qed.

(** The receipt of a forwarded request, from the byte count of the
    response. *)
Lemma receipt_of_forwarded (b : Z) (evs : list event) :
  origin_answers env w request oresp ->
  receipt_bytes oresp (headers oresp) [OriginFetch request]
    = (([OriginFetch request] ++ evs)%list, Some b) ->
  exists resp,
    handle env w request = (OriginFetch request :: evs, Some resp)
    /\ Headers.get "AI-Usage-Receipt" (headers resp)
       = Some (let payload :=
                 receipt_payload
                   (JS.or_else
                      (Headers.get "X-AI-Contract" (req_headers request)) "")
                   (status oresp) b (receipt_etag (headers oresp)) (clock w) in
               payload ++ "; sig=" ++ hmacB64 payload key).
Proof.
  intros OA B. apply origin_answers_iff in OA as [R O].
  rewrite (handle_forwarded env w request oresp R O). cbv zeta.
  rewrite llm, key_set. simpl JS.truthy_opt.
  apply truthy_true in key_truthy. rewrite key_truthy. simpl andb.
  rewrite <- receipt_bytes_rewritten in B.
  rewrite (sign_receipt_run _ _ _ _ _ _ _ _ B).
  eexists. split; [reflexivity | ]. simpl headers.
  rewrite get_set. rewrite String.eqb_refl.
  rewrite receipt_etag_rewritten, key_set. simpl JS.or_else at 3.
  unfold JS.or_else at 2. now rewrite key_truthy.
Qed.

End Receipt.

(** C1.  LLM endpoint, signing key configured, policy URLs that are header
    text (the link stage runs before the receipt, and [Headers.append]
    throws on a value with NUL, CR or LF), origin response 200 with
    Content-Length 100 and ETag abc in double quotes, request header
    X-AI-Contract pilotX: the AI-Usage-Receipt header is the payload
    contract=pilotX; status=200; bytes=100; etag=abc (quoted); ts=T, with T
    the reading of the clock, followed by the field sig.  The signature is
    [btoa] of HMAC-SHA256 of that payload under the key, both in UTF-8: 44
    characters of the standard base64 alphabet and the padding sign. *)
Theorem C1_receipt_payload_and_signature
    (env : Env) (w : World) (request : Request) (oresp : Response)
    (key : string) :
  isLLMEndpoint request = true ->
  RECEIPT_HMAC_KEY env = Some key ->
  key <> "" ->
  policy_urls_valid env = true ->
  origin_answers env w request oresp ->
  status oresp = 200%Z ->
  Headers.get "Content-Length" (headers oresp) = Some "100" ->
  Headers.get "ETag" (headers oresp) = Some (dq ++ "abc" ++ dq) ->
  Headers.get "X-AI-Contract" (req_headers request) = Some "pilotX" ->
  let payload :=
    "contract=pilotX; status=200; bytes=100; etag=" ++ dq ++ "abc" ++ dq
      ++ "; ts=" ++ clock w in
  let sig :=
    Crypto.btoa (Crypto.hmac_sha256 (Crypto.utf8 key) (Crypto.utf8 payload)) in
  exists resp,
    handle env w request = ([OriginFetch request], Some resp)
    /\ Headers.get "AI-Usage-Receipt" (headers resp)
       = Some (payload ++ "; sig=" ++ sig)
    /\ String.length sig = 44%nat
    /\ (forall c, JS.mentions c sig = true ->
                  JS.mentions c Crypto.b64_text = true).
Proof.
  intros L K Kt _ OA St CL ET XC payload sig.
  assert (B : receipt_bytes oresp (headers oresp) [OriginFetch request]
              = (([OriginFetch request] ++ [])%list, Some 100%Z)).
  { unfold receipt_bytes. rewrite St, CL. reflexivity. }
  destruct (receipt_of_forwarded env w request oresp key L K Kt 100 [] OA B)
    as (resp & H & G).
  exists resp. split; [exact H | ]. split.
  - rewrite G. cbv zeta.
    unfold receipt_etag. rewrite ET, XC, St. reflexivity.
  - split.
    + unfold sig. now rewrite length_btoa, length_hmac_sha256.
    + intros c. apply btoa_standard.
Qed.

Lemma C1_receipt_payload_and_signature_witness :
  exists resp,
    handle Sample.env_open (Sample.world_of Sample.resp_200) Sample.req_llm
      = ([OriginFetch Sample.req_llm], Some resp)
    /\ Headers.get "AI-Usage-Receipt" (headers resp)
       = Some ("contract=pilotX; status=200; bytes=100; etag=" ++ dq ++ "abc"
                 ++ dq ++ "; ts=2025-10-16T12:34:56.000Z"
                 ++ "; sig=qkpg5I4yIu3QnWMGTfULhc3tFfaV6ckyfvXTYBEZBWc=").
Proof.
  destruct (C1_receipt_payload_and_signature Sample.env_open
              (Sample.world_of Sample.resp_200) Sample.req_llm Sample.resp_200
              "testkey") as (resp & H & G & _);
    try reflexivity; try discriminate.
  - split; [ vm_compute; auto | reflexivity ].
  - exists resp. split; [exact H | ]. rewrite G. vm_compute. reflexivity.
Defined.

(** C8.  LLM endpoint, signing key configured, policy URLs that are header
    text, origin response 304: the payload of the receipt has bytes=0,
    whatever Content-Length the response carries, and the body is not
    read. *)
Theorem C8_receipt_bytes_zero_on_304
    (env : Env) (w : World) (request : Request) (oresp : Response)
    (key : string) :
  isLLMEndpoint request = true ->
  RECEIPT_HMAC_KEY env = Some key ->
  key <> "" ->
  policy_urls_valid env = true ->
  origin_answers env w request oresp ->
  status oresp = 304%Z ->
  let payload :=
    "contract="
      ++ JS.or_else (Headers.get "X-AI-Contract" (req_headers request)) ""
      ++ "; status=304; bytes=0; etag=" ++ dq
      ++ Regex.replace_all false re_quote "" (receipt_etag (headers oresp))
      ++ dq ++ "; ts=" ++ clock w in
  exists resp,
    handle env w request = ([OriginFetch request], Some resp)
    /\ Headers.get "AI-Usage-Receipt" (headers resp)
       = Some (payload ++ "; sig=" ++ hmacB64 payload key).
Proof.
  intros L K Kt _ OA St payload.
  assert (B : receipt_bytes oresp (headers oresp) [OriginFetch request]
              = (([OriginFetch request] ++ [])%list, Some 0%Z)).
  { unfold receipt_bytes. rewrite St. reflexivity. }
  destruct (receipt_of_forwarded env w request oresp key L K Kt 0 [] OA B)
    as (resp & H & G).
  exists resp. split; [exact H | ]. rewrite G. cbv zeta.
  unfold receipt_payload. rewrite St. reflexivity.
Qed.

Lemma C8_receipt_bytes_zero_on_304_witness :
  exists resp,
    handle Sample.env_open (Sample.world_of Sample.resp_304) Sample.req_llm
      = ([OriginFetch Sample.req_llm], Some resp)
    /\ Headers.get "Content-Length" (headers Sample.resp_304) = Some "100"
    /\ Headers.get "AI-Usage-Receipt" (headers resp)
       = Some ("contract=pilotX; status=304; bytes=0; etag=" ++ dq ++ "abc"
                 ++ dq ++ "; ts=2025-10-16T12:34:56.000Z"
                 ++ "; sig=" ++ hmacB64
                      ("contract=pilotX; status=304; bytes=0; etag=" ++ dq
                         ++ "abc" ++ dq ++ "; ts=2025-10-16T12:34:56.000Z")
                      "testkey").
Proof.
  destruct (C8_receipt_bytes_zero_on_304 Sample.env_open
              (Sample.world_of Sample.resp_304) Sample.req_llm Sample.resp_304
              "testkey") as (resp & H & G);
    try reflexivity; try discriminate.
  - split; [ vm_compute; auto | reflexivity ].
  - exists resp. split; [exact H | ]. split; [reflexivity | ].
    rewrite G. vm_compute. reflexivity.
Defined.



(** C4, as amended.  LLM endpoint, signing key configured, policy URLs that
    are header text, origin response 200.  When Content-Length is present,
    not empty and no integer to
    [parseInt], the receipt reports bytes=0, the body is not buffered and
    the request does not fail.  The body is buffered and measured only when
    the header is absent or empty. *)
Theorem C4_unparseable_content_length_counts_zero
    (env : Env) (w : World) (request : Request) (oresp : Response)
    (key : string) :
  isLLMEndpoint request = true ->
  RECEIPT_HMAC_KEY env = Some key ->
  key <> "" ->
  policy_urls_valid env = true ->
  origin_answers env w request oresp ->
  status oresp = 200%Z ->
  let receipt bytes :=
    let payload :=
      receipt_payload
        (JS.or_else (Headers.get "X-AI-Contract" (req_headers request)) "")
        200 bytes (receipt_etag (headers oresp)) (clock w) in
    payload ++ "; sig=" ++ hmacB64 payload key in
  (forall cl,
     Headers.get "Content-Length" (headers oresp) = Some cl ->
     cl <> "" ->
     JS.parseInt10 cl = None ->
     exists resp,
       handle env w request = ([OriginFetch request], Some resp)
       /\ Headers.get "AI-Usage-Receipt" (headers resp) = Some (receipt 0%Z))
  /\ (Headers.get "Content-Length" (headers oresp) = None
      \/ Headers.get "Content-Length" (headers oresp) = Some "" ->
      exists resp,
        handle env w request = ([OriginFetch request; BufferBody], Some resp)
        /\ Headers.get "AI-Usage-Receipt" (headers resp)
           = Some (receipt (Z.of_nat (String.length (body oresp))))).
Proof.
  intros L K Kt _ OA St receipt. split.
  - intros cl CL Ne NaN.
    assert (B : receipt_bytes oresp (headers oresp) [OriginFetch request]
                = (([OriginFetch request] ++ [])%list, Some 0%Z)).
    { unfold receipt_bytes. rewrite St, CL. simpl.
      apply truthy_true in Ne. rewrite Ne, NaN. reflexivity. }
    destruct (receipt_of_forwarded env w request oresp key L K Kt 0 [] OA B)
      as (resp & H & G).
    exists resp. split; [exact H | ]. rewrite G, St. reflexivity.
  - intros CL.
    assert (B : receipt_bytes oresp (headers oresp) [OriginFetch request]
                = (([OriginFetch request] ++ [BufferBody])%list,
                   Some (Z.of_nat (String.length (body oresp))))).
    { unfold receipt_bytes. rewrite St. simpl.
      destruct CL as [CL|CL]; rewrite CL; reflexivity. }
    destruct (receipt_of_forwarded env w request oresp key L K Kt _ _ OA B)
      as (resp & H & G).
    exists resp. split; [exact H | ]. rewrite G, St. reflexivity.
Qed.

Lemma C4_unparseable_content_length_counts_zero_witness :
  (exists resp,
     handle Sample.env_open (Sample.world_of Sample.resp_badlen) Sample.req_llm
       = ([OriginFetch Sample.req_llm], Some resp)
     /\ Headers.get "AI-Usage-Receipt" (headers resp)
        = Some ("contract=pilotX; status=200; bytes=0; etag=" ++ dq ++ dq
                  ++ "; ts=2025-10-16T12:34:56.000Z"
                  ++ "; sig=" ++ hmacB64
                       ("contract=pilotX; status=200; bytes=0; etag=" ++ dq
                          ++ dq ++ "; ts=2025-10-16T12:34:56.000Z")
                       "testkey")).
Proof.
  destruct (C4_unparseable_content_length_counts_zero Sample.env_open
              (Sample.world_of Sample.resp_badlen) Sample.req_llm
              Sample.resp_badlen "testkey") as [U _];
    try reflexivity; try discriminate.
  - split; [ vm_compute; auto | reflexivity ].
  - destruct (U "abc") as (resp & H & G);
      try reflexivity; try discriminate.
    exists resp. split; [exact H | ]. rewrite G. vm_compute. reflexivity.
Defined.

(** C4 as stated fails: for Content-Length abc on a body of five bytes the
    receipt says bytes=0, not bytes=5, and the handler does not read the
    body. *)
Lemma C4_counterexample :
  Headers.get "Content-Length" (headers Sample.resp_badlen) = Some "abc"
  /\ JS.parseInt10 "abc" = None
  /\ String.length (body Sample.resp_badlen) = 5%nat
  /\ exists resp,
       handle Sample.env_open (Sample.world_of Sample.resp_badlen)
         Sample.req_llm = ([OriginFetch Sample.req_llm], Some resp)
       /\ Headers.get "AI-Usage-Receipt" (headers resp)
          = Some ("contract=pilotX; status=200; bytes=0; etag=" ++ dq ++ dq
                    ++ "; ts=2025-10-16T12:34:56.000Z"
                    ++ "; sig=2tAoz55oXxtXjGOjmU0RaHH6+jMWTAzZ3ca08gtfaFk=").
Proof.
  repeat split.
  eexists. split; [ vm_compute; reflexivity | ]. vm_compute. reflexivity.
Qed.

(** ** The path patterns *)

Section RegexFacts.
Import Regex.

Lemma search_unfold (icase : bool) (r : re) (s : string) :
  search icase r s =
  match run icase r s Some with
  | Some rest => Some (EmptyString, rest)
  | None =>
      match s with
      | String c s' =>
          match search icase r s' with
          | Some (pre, rest) => Some (String c pre, rest)
          | None => None
          end
      | EmptyString => None
      end
  end.
Proof. destruct s; reflexivity. Qed.

Ltac crack H :=
  repeat (simpl in H;
    match type of H with
    | context [match ?s with EmptyString => _ | String _ _ => _ end] =>
        is_var s; destruct s
    | context [if Ascii.eqb ?c ?x then _ else _] =>
        destruct (Ascii.eqb_spec c x); [subst c | ]
    | _ => discriminate H
    end).

Lemma run_llm_inv (s rest : string) :
  run false re_llm s Some = Some rest -> s = "/llm" \/ s = "/llm/".
Proof.
  unfold re_llm. intros H. crack H; auto.
Qed.

Lemma run_strip_inv (s rest : string) :
  run false re_strip s Some = Some rest ->
  s = "/llm/" \/ s = "/llm" \/ s = "llm/" \/ s = "llm".
Proof.
  unfold re_strip. intros H. crack H; auto.
Qed.

Lemma search_llm_inv (p pre rest : string) :
  search false re_llm p = Some (pre, rest) ->
  p = pre ++ "/llm" \/ p = pre ++ "/llm/".
Proof.
  revert pre rest. induction p as [|c p IH]; intros pre rest;
    rewrite search_unfold.
  - destruct (run false re_llm "" Some) eqn:R; [ | discriminate ].
    apply run_llm_inv in R. destruct R; discriminate.
  - destruct (run false re_llm (String c p) Some) eqn:R.
    + intros E. inversion E; subst. apply run_llm_inv in R. exact R.
    + destruct (search false re_llm p) as [[pre' rest']|] eqn:S;
        [ | discriminate ].
      intros E. inversion E; subst.
      destruct (IH _ _ eq_refl) as [H|H]; rewrite H; auto.
Qed.

(** Left of the final segment the strip pattern finds nothing. *)
Lemma run_strip_before (c : ascii) (base tail : string) :
  tail = "/llm" \/ tail = "/llm/" ->
  run false re_strip (String c (base ++ tail)) Some = None.
Proof.
  intros T. destruct (run false re_strip _ Some) eqn:R; [ | reflexivity ].
  exfalso. apply run_strip_inv in R.
  assert (L : (5 <= String.length (String c (base ++ tail)))%nat).
  { simpl. rewrite length_append. destruct T; subst tail; simpl; lia. }
  destruct R as [R|[R|[R|R]]]; rewrite R in L; simpl in L; try lia.
  destruct T; subst tail.
  - inversion R as [[Hc Hb]]. destruct base as [|x base].
    + discriminate Hb.
    + apply (f_equal String.length) in Hb. simpl in Hb.
      rewrite length_append in Hb. simpl in Hb. lia.
  - apply (f_equal String.length) in R. simpl in R.
    rewrite length_append in R. simpl in R. lia.
Qed.

Lemma search_strip (base tail : string) :
  tail = "/llm" \/ tail = "/llm/" ->
  search false re_strip (base ++ tail) = Some (base, "").
Proof.
  intros T. induction base as [|c base IH].
  - destruct T; subst tail; reflexivity.
  - simpl append. rewrite search_unfold, (run_strip_before c base tail T), IH.
    reflexivity.
Qed.

Lemma replace_strip (base tail : string) :
  tail = "/llm" \/ tail = "/llm/" ->
  replace false re_strip "/" (base ++ tail) = base ++ "/".
Proof. intros T. unfold replace. now rewrite (search_strip base tail T). Qed.

(** The canonical URL of an LLM endpoint. *)
Lemma cUrl_of_llm (request : Request) :
  isLLMEndpoint request = true ->
  exists base,
    (url_pathname request = base ++ "/llm"
     \/ url_pathname request = base ++ "/llm/")
    /\ cUrl request
       = url_protocol request ++ "//" ++ url_host request ++ base ++ "/".
Proof.
  unfold isLLMEndpoint, test, cUrl. intros L.
  destruct (search false re_llm (url_pathname request)) as [[pre rest]|] eqn:S;
    [ | discriminate ].
  apply search_llm_inv in S. exists pre. split; [exact S | ].
  destruct S as [S|S]; rewrite S, replace_strip; auto.
Qed.
End RegexFacts.

(** ** Matches and separators *)

Section Matching.

Import Regex.

Variable icase : bool.

Lemma many_fallback {A} (a : atom) (s : string) (k : string -> option A) :
  k s <> None -> many icase a s k <> None.
Proof.
  intros H. destruct s as [|c s]; simpl; [exact H | ].
  destruct (atom_ok icase a c); [ | exact H ].
  destruct (many icase a s k); [discriminate | exact H].
Qed.


(** A match of a pattern without anchor stays when text follows. *)
Lemma run_extend {A B} (t : string) (r : re) :
  anchor_free r = true ->
  forall (k : string -> option A) (k' : string -> option B),
    (forall u, k u <> None -> k' (u ++ t) <> None) ->
    forall s, run icase r s k <> None -> run icase r (s ++ t) k' <> None.
Proof.
  induction r as [ | a | a | | r1 IH1 r2 IH2 | r1 IH1 r2 IH2 | r1 IH1 ];
    simpl; intros Af k k' K s.
  - apply K.
  - destruct s as [|c s]; simpl; [congruence | ].
    destruct (atom_ok icase a c); [apply K | congruence].
  - induction s as [|c s IHs]; simpl.
    + intros H. apply many_fallback. apply (K "" H).
    + destruct (atom_ok icase a c); [ | apply (K (String c s)) ].
      destruct (many icase a s k) eqn:M.
      * intros _. destruct (many icase a (s ++ t) k') eqn:M';
          [discriminate | ].
        exfalso. apply IHs; [ congruence | reflexivity ].
      * intros H. destruct (many icase a (s ++ t) k'); [discriminate | ].
        apply (K (String c s) H).
  - discriminate Af.
  - apply andb_true_iff in Af as [Af1 Af2].
    apply (IH1 Af1). intros u. apply (IH2 Af2). exact K.
  - apply andb_true_iff in Af as [Af1 Af2].
    destruct (run icase r1 s k) eqn:R1.
    + intros _. destruct (run icase r1 (s ++ t) k') eqn:R1';
        [discriminate | ].
      exfalso. apply (IH1 Af1 k k' K s); [ congruence | exact R1' ].
    + intros H. destruct (run icase r1 (s ++ t) k'); [discriminate | ].
      apply (IH2 Af2 k k' K s H).
  - destruct (run icase r1 s k) eqn:R1.
    + intros _. destruct (run icase r1 (s ++ t) k') eqn:R1';
        [discriminate | ].
      exfalso. apply (IH1 Af k k' K s); [ congruence | exact R1' ].
    + intros H. destruct (run icase r1 (s ++ t) k'); [discriminate | ].
      apply (K s H).
Qed.

End Matching.

(** ** Counting matches *)

Section Counting.

Import Regex.



Lemma test_extend (icase : bool) (r : re) (s t : string) :
  anchor_free r = true ->
  test icase r s = true -> test icase r (s ++ t) = true.
Proof.
  intros Af. unfold test. induction s as [|c s IH].
  - rewrite search_unfold. destruct (run icase r "" Some) eqn:R;
      [ | discriminate ].
    intros _. rewrite search_unfold.
    destruct (run icase r ("" ++ t) Some) eqn:R'; [reflexivity | ].
    exfalso. revert R'.
    apply (run_extend icase t r Af Some Some); congruence.
  - rewrite search_unfold. simpl append. rewrite (search_unfold _ _ (String c _)).
    destruct (run icase r (String c s) Some) eqn:R.
    + intros _.
      destruct (run icase r (String c (s ++ t)) Some) eqn:R'; [reflexivity | ].
      exfalso. revert R'.
      apply (run_extend icase t r Af Some Some (fun u H => ltac:(discriminate))
               (String c s)).
      congruence.
    + destruct (run icase r (String c (s ++ t)) Some); [reflexivity | ].
      destruct (search icase r s) as [[pre rest]|]; [ | discriminate ].
      intros _. specialize (IH eq_refl).
      destruct (search icase r (s ++ t)) as [[pre' rest']|];
        [reflexivity | discriminate].
Qed.

(** A pattern of the link detectors: no anchor, a first character that
    must be the semicolon, no match of the empty string. *)
Variable r : re.
Hypothesis free : anchor_free r = true.
Hypothesis head : forall c s, c <> ";"%char -> run true r (String c s) Some = None.
Hypothesis nonempty : run true r "" Some = None.








End Counting.

(** ** The detection patterns *)

Section Detectors.

Import Regex.






End Detectors.

(** ** The link stage *)

Lemma join_snoc (l : list string) (v : string) :
  l <> [] -> Headers.join (l ++ [v]) = Headers.join l ++ ", " ++ v.
Proof.
  induction l as [|x [|y l] IH]; intros N; [congruence | reflexivity | ].
  change (Headers.join ((x :: y :: l) ++ [v]))
    with (x ++ ", " ++ Headers.join ((y :: l) ++ [v])).
  rewrite IH by discriminate.
  change (Headers.join (x :: y :: l)) with (x ++ ", " ++ Headers.join (y :: l)).
  now rewrite !append_assoc.
Qed.

Lemma get_append_combined (name v : string) (h : gmap string string)
    (l : list string) :
  Headers.get name h = Headers.combined l ->
  Headers.get name (Headers.append name v h) = Headers.combined (l ++ [v]).
Proof.
  intros H. rewrite get_append, String.eqb_refl, H.
  destruct l as [|x l]; [reflexivity | ].
  change (Headers.combined ((x :: l) ++ [v]))
    with (Some (Headers.join ((x :: l) ++ [v]))).
  rewrite join_snoc by congruence. reflexivity.
Qed.

Lemma or_else_combined (l : list string) :
  JS.or_else (Headers.combined l) "" = Headers.join l.
Proof.
  destruct l as [|x l]; [reflexivity | ].
  change (Headers.combined (x :: l)) with (Some (Headers.join (x :: l))).
  generalize (Headers.join (x :: l)). intros j.
  unfold JS.or_else, JS.truthy.
  destruct (String.eqb_spec j ""); simpl; congruence.
Qed.

Lemma combined_values (name : string) (h : gmap string string) :
  Headers.combined (Headers.values name h) = Headers.get name h.
Proof. unfold Headers.values. destruct (Headers.get name h); reflexivity. Qed.

Section LinkStage.

Variables (env : Env) (request : Request).

Lemma link_stage (h : gmap string string) (olist : list string) :
  Headers.get "Link" h = Headers.combined olist ->
  let clist :=
    if Regex.test true re_canonical (Headers.join olist) then []
    else [link_entry (cUrl request) "canonical"] in
  let link1 := Headers.join (olist ++ clist) in
  let tlist :=
    if JS.truthy_opt (TERMS_URL env) && negb (Regex.test true re_terms link1)
    then [link_entry (JS.or_else (TERMS_URL env) "") "terms-of-service"]
    else [] in
  let plist :=
    if JS.truthy_opt (PRICING_URL env) && negb (Regex.test true re_pricing link1)
    then [link_entry (JS.or_else (PRICING_URL env) "") "payment"]
    else [] in
  Headers.get "Link" (inject_policy env (inject_canonical request h))
  = Headers.combined (olist ++ clist ++ tlist ++ plist).
Proof.
  intros H clist link1 tlist plist.
  assert (H1 : Headers.get "Link" (inject_canonical request h)
               = Headers.combined (olist ++ clist)).
  { unfold inject_canonical, clist. rewrite H, or_else_combined.
    destruct (Regex.test true re_canonical (Headers.join olist)); simpl negb.
    - now rewrite app_nil_r.
    - now apply get_append_combined. }
  unfold inject_policy. rewrite H1, or_else_combined. fold link1.
  unfold tlist, plist.
  destruct (JS.truthy_opt (TERMS_URL env) && negb (Regex.test true re_terms link1));
    destruct (JS.truthy_opt (PRICING_URL env)
              && negb (Regex.test true re_pricing link1)).
  - rewrite !List.app_assoc.
    apply get_append_combined. apply get_append_combined. exact H1.
  - rewrite List.app_nil_r, List.app_assoc.
    apply get_append_combined. exact H1.
  - rewrite List.app_assoc.
    apply get_append_combined. exact H1.
  - rewrite List.app_nil_r. exact H1.
Qed.



End LinkStage.

(** ** Claims on the Link header *)



Lemma search_llm_suffix (base tail : string) :
  tail = "/llm" \/ tail = "/llm/" ->
  Regex.search false re_llm (base ++ tail) <> None.
Proof.
  intros T. induction base as [|c base IH].
  - destruct T; subst tail; discriminate.
  - simpl append. rewrite search_unfold.
    destruct (Regex.run false re_llm _ Some); [discriminate | ].
    destruct (Regex.search false re_llm (base ++ tail)) as [[pre rest]|];
      [discriminate | exact IH].
Qed.

(** A path is an LLM endpoint exactly when it ends in /llm or /llm/. *)
Lemma isLLMEndpoint_iff (request : Request) :
  isLLMEndpoint request = true <->
  exists base, url_pathname request = base ++ "/llm"
               \/ url_pathname request = base ++ "/llm/".
Proof.
  split.
  - intros L. destruct (cUrl_of_llm request L) as (base & Hp & _). eauto.
  - intros (base & Hp). unfold isLLMEndpoint, Regex.test.
    destruct Hp as [Hp|Hp]; rewrite Hp;
      destruct (Regex.search false re_llm _) eqn:E; try reflexivity;
      exfalso; revert E; apply search_llm_suffix; auto.
Qed.





(** Text joined in front is a prefix of the joined whole. *)
Lemma join_app_prefix (l1 l2 : list string) :
  l1 <> [] -> exists t, Headers.join (l1 ++ l2) = Headers.join l1 ++ t.
Proof.
  intros N. induction l2 as [|v l2 IH] using rev_ind.
  - exists "". now rewrite List.app_nil_r, append_nil_r.
  - destruct IH as (t & E). exists (t ++ ", " ++ v).
    rewrite List.app_assoc, join_snoc, E by (destruct l1; [congruence | discriminate]).
    now rewrite append_assoc.
Qed.

Lemma test_join_prefix (r : Regex.re) (l1 l2 : list string) :
  Regex.anchor_free r = true ->
  Regex.run true r "" Some = None ->
  Regex.test true r (Headers.join (l1 ++ l2)) = false ->
  Regex.test true r (Headers.join l1) = false.
Proof.
  intros F N H. destruct l1 as [|x l1].
  - unfold Regex.test. rewrite search_unfold. simpl Headers.join.
    now rewrite N.
  - destruct (join_app_prefix (x :: l1) l2) as (t & E); [discriminate | ].
    rewrite E in H.
    destruct (Regex.test true r (Headers.join (x :: l1))) eqn:T;
      [ | reflexivity ].
    rewrite (test_extend true r _ t F T) in H. discriminate H.
Qed.

(** A match in a tail is a match in the whole. *)
Lemma test_skip (icase : bool) (r : Regex.re) (s t : string) :
  Regex.test icase r t = true -> Regex.test icase r (s ++ t) = true.
Proof.
  intros T. unfold Regex.test in *. induction s as [|c s IH]; [exact T | ].
  simpl append. rewrite search_unfold.
  destruct (Regex.run icase r (String c (s ++ t)) Some); [reflexivity | ].
  destruct (Regex.search icase r (s ++ t)) as [[pre rest]|];
    [reflexivity | discriminate IH].
Qed.







(** ** Evaluation on known values *)

Example split_keys : JS.split "," "key1, key2,,k3" = ["key1"; " key2"; ""; "k3"].
Proof. reflexivity. Qed.
Example split_empty : JS.split "," "" = [""].
Proof. reflexivity. Qed.
Example trim_both : JS.trim "  a b  " = "a b".
Proof. reflexivity. Qed.
Example parse_100 : JS.parseInt10 "100" = Some 100%Z.
Proof. reflexivity. Qed.
Example parse_prefix : JS.parseInt10 " -12abc" = Some (-12)%Z.
Proof. reflexivity. Qed.
Example parse_nan : JS.parseInt10 "abc" = None.
Proof. reflexivity. Qed.
Example num_200 : JS.num_to_string 200 = "200".
Proof. reflexivity. Qed.
Example num_0 : JS.num_to_string 0 = "0".
Proof. reflexivity. Qed.
Example num_neg : JS.num_to_string (-5) = "-5".
Proof. reflexivity. Qed.
Example header_text :
  map Headers.valid_value
    ["https://example.com/ai-policy"; "";
     "https://example.com/a" ++ String (ascii_of_nat 10) "";
     String (ascii_of_nat 13) "x"; String (ascii_of_nat 0) ""]
  = [true; true; false; false; false].
Proof. reflexivity. Qed.
Example link_relation_types :
  map Spec.relation_types
    ["<https://o.example/a>; rel=" ++ dq ++ "alternate Canonical" ++ dq;
     "<https://o.example/a>; title=" ++ dq ++ "x; rel=canonical" ++ dq;
     "<https://o.example/a;b>; type=text/html; REL=canonical; rel=next"]
  = [["alternate"; "canonical"]; []; ["canonical"]].
Proof. reflexivity. Qed.

Example sha_abc : Crypto.hex (Crypto.sha256 (Crypto.utf8 "abc")) =
  "ba7816bf8f01cfea414140de5dae2223b00361a396177a9cb410ff61f20015ad".
Proof. vm_compute. reflexivity. Qed.
Example sha_empty : Crypto.hex (Crypto.sha256 []) =
  "e3b0c44298fc1c149afbf4c8996fb92427ae41e4649b934ca495991b7852b855".
Proof. vm_compute. reflexivity. Qed.
Example sha_two_blocks : Crypto.hex (Crypto.sha256 (Crypto.utf8
  "abcdbcdecdefdefgefghfghighijhijkijkljklmklmnlmnomnopnopq")) =
  "248d6a61d20638b8e5c026930c3e6039a33ce45964ff2167f6ecedd419db06c1".
Proof. vm_compute. reflexivity. Qed.
Example hmac_rfc4231_2 :
  Crypto.hex (Crypto.hmac_sha256 (Crypto.utf8 "Jefe")
                (Crypto.utf8 "what do ya want for nothing?")) =
  "5bdcc146bf60754e6a042426089575c75a003f089d2739839dec58b964ec3843".
Proof. vm_compute. reflexivity. Qed.
Example btoa_rfc4648 :
  map (fun s => Crypto.btoa (Crypto.utf8 s)) ["f"; "fo"; "foo"; "foob"; "fooba"; "foobar"]
  = ["Zg=="; "Zm8="; "Zm9v"; "Zm9vYg=="; "Zm9vYmE="; "Zm9vYmFy"].
Proof. vm_compute. reflexivity. Qed.

(** * Further properties of the handler *)

(** ** Classification, guard and forwarding *)

(** X1.  A request is an LLM endpoint exactly when its path is some text
    followed by /llm or by /llm/. *)
Theorem X1_llm_endpoint_is_path_suffix (request : Request) :
  isLLMEndpoint request = true <->
  exists base, url_pathname request = base ++ "/llm"
               \/ url_pathname request = base ++ "/llm/".
Proof. apply isLLMEndpoint_iff. Qed.

(** X2.  The guard closes LLM endpoints in API-key mode only: a request to
    any other path, or under any other AUTH_MODE, reaches the origin first,
    whatever credentials it carries. *)
Theorem X2_guard_only_on_llm_in_api_key_mode
    (env : Env) (w : World) (request : Request) :
  isLLMEndpoint request = false \/ AUTH_MODE env <> Some "api_key" ->
  exists tr r, handle env w request = (OriginFetch request :: tr, r).
Proof.
  intros H. apply handle_forwarded_trace. unfold rejected, api_key_mode.
  destruct H as [L|A]; [now rewrite L | ].
  destruct (AUTH_MODE env) as [m|]; [ | now rewrite andb_false_r ].
  destruct (String.eqb_spec m "api_key") as [E|E];
    [ subst m; congruence | now rewrite andb_false_r ].
Qed.

Lemma X2_guard_only_on_llm_in_api_key_mode_witness :
  exists tr r,
    handle Sample.env_keyed (Sample.world_of Sample.resp_200)
      Sample.req_sitemap = (OriginFetch Sample.req_sitemap :: tr, r).
Proof.
  apply (X2_guard_only_on_llm_in_api_key_mode Sample.env_keyed
           (Sample.world_of Sample.resp_200) Sample.req_sitemap).
  left. reflexivity.
Defined.

(** X6.  When the origin call rejects, the handler rejects too, after that
    one call: no retry, no response of its own. *)
Theorem X6_origin_failure_propagates
    (env : Env) (w : World) (request : Request) :
  rejected env request = false ->
  origin w request = None ->
  handle env w request = ([OriginFetch request], None).
Proof. apply handle_origin_rejects. Qed.

Lemma X6_origin_failure_propagates_witness :
  handle Sample.env_open Cases.world_down Sample.req_llm
  = ([OriginFetch Sample.req_llm], None).
Proof.
  apply (X6_origin_failure_propagates Sample.env_open Cases.world_down
           Sample.req_llm); reflexivity.
Defined.

(** The trace and the response of a forwarded, answered request. *)
Lemma handle_answered (env : Env) (w : World) (request : Request)
    (oresp : Response) :
  origin_answers env w request oresp ->
  exists evs h,
    handle env w request
      = (OriginFetch request :: evs, Some (new_Response oresp h))
    /\ (evs = [] \/ evs = [BufferBody])
    /\ (evs = [BufferBody] ->
        isLLMEndpoint request = true
        /\ JS.truthy_opt (RECEIPT_HMAC_KEY env) = true
        /\ status oresp = 200%Z
        /\ JS.or_else (Headers.get "Content-Length" (headers oresp)) "" = "")
    /\ (forall name, Headers.lower name <> "ai-usage-receipt" ->
        Headers.get name h
        = Headers.get name (rewrite_headers env request (headers oresp)))
    /\ (isLLMEndpoint request && JS.truthy_opt (RECEIPT_HMAC_KEY env) = false ->
        h = rewrite_headers env request (headers oresp)).
Proof.
  intros OA. apply origin_answers_iff in OA as [R O].
  rewrite (handle_forwarded env w request oresp R O). cbv zeta.
  destruct (isLLMEndpoint request && JS.truthy_opt (RECEIPT_HMAC_KEY env))
    eqn:LK.
  - apply andb_true_iff in LK as [L K].
    set (h0 := rewrite_headers env request (headers oresp)).
    assert (B : exists evs b,
              receipt_bytes oresp h0 [OriginFetch request]
                = (([OriginFetch request] ++ evs)%list, Some b)
              /\ (evs = [] \/ evs = [BufferBody])
              /\ (evs = [BufferBody] ->
                  status oresp = 200%Z
                  /\ JS.or_else (Headers.get "Content-Length" h0) "" = "")).
    { unfold receipt_bytes, ret, byteLength_of_body.
      destruct (Z.eqb_spec (status oresp) 304).
      { exists [], 0%Z. repeat split; auto; discriminate. }
      destruct (Z.eqb_spec (status oresp) 200) as [E|E].
      2:{ exists [], 0%Z. repeat split; auto; discriminate. }
      destruct (Headers.get "Content-Length" h0) as [cl|] eqn:CL.
      - destruct (JS.truthy cl) eqn:T.
        + eexists [], _. repeat split; auto; discriminate.
        + eexists [BufferBody], _. repeat split; auto.
          unfold JS.or_else. now rewrite T.
      - eexists [BufferBody], _. repeat split; auto. }
    destruct B as (evs & b & B & Shape & Why).
    rewrite (sign_receipt_run _ _ _ _ _ _ _ _ B).
    eexists evs, _. split; [reflexivity | ].
    split; [exact Shape | ]. split.
    + intros E. destruct (Why E) as [S C]. repeat split; auto.
      unfold h0 in C. now rewrite get_rewritten_content_length in C.
    + split; [ | discriminate ].
      intros name N. now apply get_set_other.
  - eexists [], _. split; [reflexivity | ].
    split; [now left | ]. split; [discriminate | ]. split; auto.
Qed.



(** X8.  The handler reads the body of the origin response only to sign an
    LLM-endpoint response of status 200 that has no Content-Length, or an
    empty one. *)
Theorem X8_body_read_only_without_content_length
    (env : Env) (w : World) (request : Request) :
  In BufferBody (fst (handle env w request)) ->
  isLLMEndpoint request = true
  /\ JS.truthy_opt (RECEIPT_HMAC_KEY env) = true
  /\ exists oresp,
       origin w request = Some oresp
       /\ status oresp = 200%Z
       /\ JS.or_else (Headers.get "Content-Length" (headers oresp)) "" = "".
Proof.
  intros I. destruct (rejected env request) eqn:R.
  { rewrite (handle_rejected env w request R) in I. destruct I. }
  destruct (origin w request) as [oresp|] eqn:O.
  2:{ rewrite (handle_origin_rejects env w request R O) in I.
      destruct I as [I|[]]; discriminate I. }
  assert (OA : origin_answers env w request oresp)
    by (apply origin_answers_iff; auto).
  destruct (handle_answered env w request oresp OA)
    as (evs & h & H & Shape & Why & _).
  rewrite H in I. simpl in I. destruct I as [I|I]; [discriminate I | ].
  destruct Shape as [E|E]; [ subst evs; destruct I | ].
  destruct (Why E) as (L & K & S & C). repeat split; auto.
  exists oresp. auto.
Qed.

Lemma X8_body_read_only_without_content_length_witness :
  isLLMEndpoint Sample.req_llm = true
  /\ JS.truthy_opt (RECEIPT_HMAC_KEY Sample.env_open) = true
  /\ exists oresp,
       origin (Sample.world_of Sample.resp_nolen) Sample.req_llm = Some oresp
       /\ status oresp = 200%Z
       /\ JS.or_else (Headers.get "Content-Length" (headers oresp)) "" = "".
Proof.
  apply (X8_body_read_only_without_content_length Sample.env_open
           (Sample.world_of Sample.resp_nolen) Sample.req_llm).
  vm_compute. auto.
Defined.


(** ** Headers the stages leave alone *)










(** ** The allow-list and the credentials *)

Lemma or_else_some (v : string) : JS.or_else (Some v) "" = v.
Proof.
  unfold JS.or_else, JS.truthy.
  destruct (String.eqb_spec v ""); simpl; congruence.
Qed.

Lemma trimEnd_idem (s : string) : JS.trimEnd (JS.trimEnd s) = JS.trimEnd s.
Proof.
  induction s as [|c s IH]; [reflexivity | ].
  cbn [JS.trimEnd]. destruct (JS.trimEnd s) as [|d t] eqn:E.
  - destruct (JS.is_ws c) eqn:W; [reflexivity | ].
    cbn [JS.trimEnd]. now rewrite W.
  - cbn [JS.trimEnd]. cbn [JS.trimEnd] in IH. now rewrite IH.
Qed.

Lemma trimStart_head (s : string) :
  JS.trimStart s = ""
  \/ exists c t, JS.trimStart s = String c t /\ JS.is_ws c = false.
Proof.
  induction s as [|c s IH]; [now left | ].
  cbn [JS.trimStart]. destruct (JS.is_ws c) eqn:W; [exact IH | ].
  right. eauto.
Qed.

Lemma trimEnd_head (c : ascii) (t : string) :
  JS.is_ws c = false -> exists t', JS.trimEnd (String c t) = String c t'.
Proof.
  intros W. cbn [JS.trimEnd]. destruct (JS.trimEnd t); [ | eauto ].
  rewrite W. eauto.
Qed.

Lemma trim_idem (s : string) : JS.trim (JS.trim s) = JS.trim s.
Proof.
  unfold JS.trim.
  destruct (trimStart_head s) as [E|(c & t & E & W)]; rewrite E;
    [reflexivity | ].
  destruct (trimEnd_head c t W) as (t' & E'). rewrite E'.
  cbn [JS.trimStart]. rewrite W, <- E'. apply trimEnd_idem.
Qed.

Lemma keys_trimmed (env : Env) (k : string) :
  In k (keys env) -> JS.trim k = k.
Proof.
  unfold keys. intros I. apply filter_In in I as [I _].
  apply in_map_iff in I as (piece & E & _). subst k. apply trim_idem.
Qed.

(** X4.  Every entry of the allow-list is non-empty and has no white space
    at either end: it is a piece of API_KEYS between commas, trimmed. *)
Theorem X4_allow_list_entries_are_trimmed_and_nonempty
    (env : Env) (k : string) :
  In k (keys env) ->
  k <> "" /\ JS.trim k = k
  /\ exists piece,
       In piece (JS.split "," (JS.or_else (API_KEYS env) ""))
       /\ k = JS.trim piece.
Proof.
  unfold keys. intros I. apply filter_In in I as [I T].
  apply in_map_iff in I as (piece & E & I). subst k.
  split; [now apply truthy_true | ]. split; [apply trim_idem | eauto].
Qed.

Lemma X4_allow_list_entries_are_trimmed_and_nonempty_witness :
  "key2" <> "" /\ JS.trim "key2" = "key2"
  /\ exists piece,
       In piece (JS.split ","
                   (JS.or_else (API_KEYS Sample.env_keyed) ""))
       /\ "key2" = JS.trim piece.
Proof.
  apply (X4_allow_list_entries_are_trimmed_and_nonempty Sample.env_keyed
           "key2").
  vm_compute. auto.
Defined.

(** X5.  A credential with white space at either end is never accepted:
    on an LLM endpoint in API-key mode, when each of the bearer credential
    and the X-API-Key value is absent or would change under trimming, the
    answer is the 401 response. *)
Theorem X5_padded_credentials_are_rejected
    (env : Env) (w : World) (request : Request) :
  isLLMEndpoint request = true ->
  AUTH_MODE env = Some "api_key" ->
  bearer request = "" \/ JS.trim (bearer request) <> bearer request ->
  xKey request = "" \/ JS.trim (xKey request) <> xKey request ->
  handle env w request = ([], Some unauthorized).
Proof.
  intros L A Nb Nx. apply handle_rejected.
  unfold rejected, api_key_mode. rewrite L, A. simpl.
  apply negb_true_iff. destruct (ok env request) eqn:O; [ | reflexivity ].
  apply ok_iff in O.
  destruct O as [I|I];
    pose proof (keys_truthy env _ I) as T; apply truthy_true in T;
    apply keys_trimmed in I; tauto.
Qed.

Lemma X5_padded_credentials_are_rejected_witness :
  handle Sample.env_keyed (Sample.world_of Sample.resp_200)
    Cases.req_llm_xkey_padded = ([], Some unauthorized).
Proof.
  apply (X5_padded_credentials_are_rejected Sample.env_keyed
           (Sample.world_of Sample.resp_200) Cases.req_llm_xkey_padded);
    try reflexivity; [ left; reflexivity | right; vm_compute; discriminate ].
Defined.


Lemma split_blank (s : string) :
  Reference.blank_list s = true ->
  Forall (fun p => JS.trimStart p = "") (JS.split "," s).
Proof.
  induction s as [|c s IH]; cbn [Reference.blank_list JS.split]; intros B.
  - constructor; [reflexivity | constructor].
  - apply andb_true_iff in B as [Bc Bs]. specialize (IH Bs).
    destruct (Ascii.eqb c ",") eqn:E.
    + constructor; [reflexivity | exact IH].
    + simpl in Bc. destruct (JS.split "," s) as [|h t].
      * constructor; [ | constructor ]. cbn [JS.trimStart]. now rewrite Bc.
      * inversion IH as [|? ? Hh Ht]; subst.
        constructor; [ | exact Ht ]. cbn [JS.trimStart]. now rewrite Bc.
Qed.

Lemma keys_of_blank_list (env : Env) :
  Reference.blank_list (JS.or_else (API_KEYS env) "") = true ->
  keys env = [].
Proof.
  intros B. unfold keys. apply split_blank in B.
  induction B as [|p l Hp _ IH]; [reflexivity | ].
  cbn [map List.filter]. unfold JS.trim at 1. rewrite Hp. exact IH.
Qed.

(** X3.  API-key mode without a usable key closes every LLM endpoint: when
    API_KEYS is unset, empty, or holds commas and white space only, each
    LLM-endpoint request gets the 401 response, whatever it presents. *)
Theorem X3_no_usable_key_closes_llm_endpoints
    (env : Env) (w : World) (request : Request) :
  isLLMEndpoint request = true ->
  AUTH_MODE env = Some "api_key" ->
  Reference.blank_list (JS.or_else (API_KEYS env) "") = true ->
  handle env w request = ([], Some unauthorized).
Proof.
  intros L A B. apply handle_rejected.
  unfold rejected, api_key_mode. rewrite L, A. simpl.
  apply negb_true_iff. destruct (ok env request) eqn:O; [ | reflexivity ].
  apply ok_iff in O. rewrite (keys_of_blank_list env B) in O.
  destruct O as [[]|[]].
Qed.

Lemma X3_no_usable_key_closes_llm_endpoints_witness :
  handle Cases.env_no_keys (Sample.world_of Sample.resp_200)
    Sample.req_llm_key1 = ([], Some unauthorized).
Proof.
  apply (X3_no_usable_key_closes_llm_endpoints Cases.env_no_keys
           (Sample.world_of Sample.resp_200) Sample.req_llm_key1);
    reflexivity.
Defined.

Lemma toLowerCase_append (a b : string) :
  JS.toLowerCase (a ++ b) = JS.toLowerCase a ++ JS.toLowerCase b.
Proof. induction a as [|c a IH]; simpl; [reflexivity | now rewrite IH]. Qed.

Lemma prefix_append (p x : string) : String.prefix p (p ++ x) = true.
Proof.
  induction p as [|c p IH]; simpl; [now destruct x | ].
  destruct (ascii_dec c c); [exact IH | congruence].
Qed.

(** X12.  The Bearer scheme is read in any letter case and is seven
    characters long: when the Authorization value is a scheme that
    lower-cases to bearer and a space, followed by a credential, the bearer
    credential is that credential, as it stands. *)
Theorem X12_bearer_scheme_in_any_case
    (request : Request) (scheme cred : string) :
  Headers.get "authorization" (req_headers request) = Some (scheme ++ cred) ->
  JS.toLowerCase scheme = "bearer " ->
  bearer request = cred.
Proof.
  intros G S. unfold bearer, auth. rewrite G, or_else_some.
  rewrite toLowerCase_append, S.
  unfold JS.startsWith. rewrite prefix_append.
  do 7 (destruct scheme as [|? scheme]; [discriminate S | ]).
  destruct scheme; [reflexivity | discriminate S].
Qed.

Lemma X12_bearer_scheme_in_any_case_witness :
  bearer Cases.req_llm_shout = "key2".
Proof.
  apply (X12_bearer_scheme_in_any_case Cases.req_llm_shout "BEARER " "key2");
    reflexivity.
Defined.


(** ** The link stage *)

Lemma join_contains (l : list string) (e : string) :
  In e l -> exists pre post, Headers.join l = pre ++ e ++ post.
Proof.
  induction l as [|x [|y l] IH]; intros I.
  - destruct I.
  - destruct I as [E|[]]. subst x. exists "", "". simpl.
    now rewrite append_nil_r.
  - change (Headers.join (x :: y :: l))
      with (x ++ ", " ++ Headers.join (y :: l)).
    destruct I as [E|I].
    + subst x. exists "", (", " ++ Headers.join (y :: l)). reflexivity.
    + destruct (IH I) as (pre & post & E). rewrite E.
      exists (x ++ ", " ++ pre), post. now rewrite !append_assoc.
Qed.

Lemma test_join_member (r : Regex.re) (l : list string) (e : string) :
  Regex.anchor_free r = true ->
  In e l -> Regex.test true r e = true ->
  Regex.test true r (Headers.join l) = true.
Proof.
  intros F I T. destruct (join_contains l e I) as (pre & post & E).
  rewrite E. apply test_skip. now apply test_extend.
Qed.

(** Each entry the stage writes is found by the detector of its type. *)
Lemma entry_detected (uri : string) :
  Regex.test true re_canonical (link_entry uri "canonical") = true
  /\ Regex.test true re_terms (link_entry uri "terms-of-service") = true
  /\ Regex.test true re_pricing (link_entry uri "payment") = true.
Proof.
  assert (A : forall rel,
            link_entry uri rel
            = ("<" ++ uri) ++ (">; rel=" ++ dq ++ rel ++ dq)).
  { intros rel. unfold link_entry. now rewrite append_assoc. }
  repeat split; rewrite A; apply test_skip; reflexivity.
Qed.

(** X13.  The link stage is idempotent: run on its own result it adds
    nothing. *)
Theorem X13_link_stage_is_idempotent
    (env : Env) (request : Request) (h : gmap string string) :
  let h' := inject_policy env (inject_canonical request h) in
  inject_policy env (inject_canonical request h') = h'.
Proof.
  intros h'.
  pose proof (link_stage env request h (Headers.values "Link" h)) as S.
  rewrite combined_values in S. specialize (S eq_refl). cbv zeta in S.
  fold h' in S.
  set (olist := Headers.values "Link" h) in *.
  set (clist := if Regex.test true re_canonical (Headers.join olist) then []
                else [link_entry (cUrl request) "canonical"]) in *.
  set (link1 := Headers.join (olist ++ clist)) in *.
  set (tlist := if JS.truthy_opt (TERMS_URL env)
                   && negb (Regex.test true re_terms link1)
                then [link_entry (JS.or_else (TERMS_URL env) "")
                        "terms-of-service"] else []) in *.
  set (plist := if JS.truthy_opt (PRICING_URL env)
                   && negb (Regex.test true re_pricing link1)
                then [link_entry (JS.or_else (PRICING_URL env) "") "payment"]
                else []) in *.
  set (all := (olist ++ clist ++ tlist ++ plist)%list) in *.
  assert (J : JS.or_else (Headers.get "Link" h') "" = Headers.join all).
  { now rewrite S, or_else_combined. }
  destruct (entry_detected (cUrl request)) as (Dc & _ & _).
  destruct (entry_detected (JS.or_else (TERMS_URL env) "")) as (_ & Dt & _).
  destruct (entry_detected (JS.or_else (PRICING_URL env) "")) as (_ & _ & Dp).
  assert (C : Regex.test true re_canonical (Headers.join all) = true).
  { destruct (Regex.test true re_canonical (Headers.join all)) eqn:T;
      [reflexivity | ].
    pose proof (test_join_prefix re_canonical olist _ eq_refl eq_refl T) as T0.
    assert (I : In (link_entry (cUrl request) "canonical") all).
    { unfold all, clist. rewrite T0. apply in_or_app. right. now left. }
    rewrite (test_join_member re_canonical all _ eq_refl I Dc) in T.
    discriminate T. }
  assert (P1 : Regex.test true re_terms link1 = true ->
               Regex.test true re_terms (Headers.join all) = true).
  { intros T1. destruct (Regex.test true re_terms (Headers.join all)) eqn:T;
      [reflexivity | ].
    unfold all in T. rewrite List.app_assoc in T.
    apply (test_join_prefix re_terms _ _ eq_refl eq_refl) in T.
    fold link1 in T. congruence. }
  assert (P2 : Regex.test true re_pricing link1 = true ->
               Regex.test true re_pricing (Headers.join all) = true).
  { intros T1. destruct (Regex.test true re_pricing (Headers.join all)) eqn:T;
      [reflexivity | ].
    unfold all in T. rewrite List.app_assoc in T.
    apply (test_join_prefix re_pricing _ _ eq_refl eq_refl) in T.
    fold link1 in T. congruence. }
  assert (E1 : inject_canonical request h' = h').
  { unfold inject_canonical. now rewrite J, C. }
  rewrite E1. unfold inject_policy. rewrite J.
  assert (Tt : JS.truthy_opt (TERMS_URL env)
               && negb (Regex.test true re_terms (Headers.join all)) = false).
  { destruct (JS.truthy_opt (TERMS_URL env)) eqn:K; [ | reflexivity ].
    simpl. apply negb_false_iff.
    destruct (Regex.test true re_terms link1) eqn:T1; [now apply P1 | ].
    apply (test_join_member re_terms all _ eq_refl) with (2 := Dt).
    unfold all, tlist. rewrite ?K, ?T1. simpl.
    apply in_or_app. right. apply in_or_app. right. now left. }
  assert (Tp : JS.truthy_opt (PRICING_URL env)
               && negb (Regex.test true re_pricing (Headers.join all)) = false).
  { destruct (JS.truthy_opt (PRICING_URL env)) eqn:K; [ | reflexivity ].
    simpl. apply negb_false_iff.
    destruct (Regex.test true re_pricing link1) eqn:T1; [now apply P2 | ].
    apply (test_join_member re_pricing all _ eq_refl) with (2 := Dp).
    unfold all, plist. rewrite ?K, ?T1. simpl.
    apply in_or_app. right. apply in_or_app. right.
    apply in_or_app. right. now left. }
  now rewrite Tt, Tp.
Qed.








(** ** The receipt *)

Lemma replace_all_from_without (r : Regex.re) (bad : ascii -> bool) :
  (forall s, Regex.run false r s Some
             = match s with
               | String c s' => if bad c then Some s' else None
               | EmptyString => None
               end) ->
  forall fuel s, (String.length s < fuel)%nat ->
    Regex.replace_all_from fuel false r "" s = Reference.without bad s.
Proof.
  intros R fuel. induction fuel as [|fuel IH]; intros s Hl; [lia | ].
  cbn [Regex.replace_all_from]. rewrite R.
  destruct s as [|c s]; [reflexivity | ].
  cbn [Reference.without]. simpl in Hl.
  destruct (bad c).
  - replace (String.length s <? String.length (String c s))%nat with true
      by (symmetry; apply Nat.ltb_lt; simpl; lia).
    simpl. apply IH. lia.
  - f_equal. apply IH. lia.
Qed.

Lemma replace_all_without (r : Regex.re) (bad : ascii -> bool) (s : string) :
  (forall s, Regex.run false r s Some
             = match s with
               | String c s' => if bad c then Some s' else None
               | EmptyString => None
               end) ->
  Regex.replace_all false r "" s = Reference.without bad s.
Proof.
  intros R. unfold Regex.replace_all.
  apply (replace_all_from_without r bad R). lia.
Qed.

Lemma without_without (f g : ascii -> bool) (s : string) :
  Reference.without f (Reference.without g s)
  = Reference.without (fun c => g c || f c) s.
Proof.
  induction s as [|c s IH]; [reflexivity | ]. cbn [Reference.without].
  destruct (g c); simpl; [exact IH | ].
  cbn [Reference.without]. destruct (f c); [exact IH | now rewrite IH].
Qed.

Lemma without_ext (f g : ascii -> bool) (s : string) :
  (forall c, f c = g c) -> Reference.without f s = Reference.without g s.
Proof.
  intros E. induction s as [|c s IH]; [reflexivity | ].
  cbn [Reference.without]. now rewrite E, IH.
Qed.

(** X16.  The etag field of the receipt payload is the ETag value of the
    response without its double quotes, carriage returns and line feeds,
    the other characters in their order, between two double quotes; it is
    empty when the response has no ETag. *)
Theorem X16_receipt_etag_field
    (h : gmap string string) (contract ts : string) (st bytes : Z) :
  receipt_payload contract st bytes (receipt_etag h) ts
  = "contract=" ++ contract ++ "; status=" ++ JS.num_to_string st
      ++ "; bytes=" ++ JS.num_to_string bytes ++ "; etag=" ++ dq
      ++ Reference.without Reference.quote_or_newline
           (JS.or_else (Headers.get "ETag" h) "")
      ++ dq ++ "; ts=" ++ ts.
Proof.
  assert (E : receipt_etag h
              = Regex.replace_all false re_crlf ""
                  (JS.or_else (Headers.get "ETag" h) "")).
  { unfold receipt_etag. destruct (Headers.get "ETag" h) as [v|];
      [ | reflexivity ].
    simpl option_map. now rewrite !or_else_some. }
  assert (F : Regex.replace_all false re_quote "" (receipt_etag h)
              = Reference.without Reference.quote_or_newline
                  (JS.or_else (Headers.get "ETag" h) "")).
  { rewrite E.
    rewrite (replace_all_without re_crlf
               (fun c => Ascii.eqb c (ascii_of_nat 13)
                         || Ascii.eqb c (ascii_of_nat 10))).
    2:{ intros [|c s]; [reflexivity | ]. simpl.
        destruct (Ascii.eqb c _); [reflexivity | ].
        destruct (Ascii.eqb c _); reflexivity. }
    rewrite (replace_all_without re_quote
               (fun c => Ascii.eqb c (ascii_of_nat 34))).
    2:{ intros [|c s]; reflexivity. }
    rewrite without_without. apply without_ext.
    intros c. destruct c as [[] [] [] [] [] [] [] []]; reflexivity. }
  unfold receipt_payload. now rewrite F.
Qed.

(** A signature of 32 bytes ends in one padding sign. *)
Lemma btoa_one_pad (l : list Z) :
  (length l mod 3 = 2)%nat -> exists s, Crypto.btoa l = s ++ "=".
Proof.
  induction l as [ | a | a b | a b c r IH ] using list3_ind; intros M;
    try discriminate M.
  - cbn [Crypto.btoa]. eexists (String _ (String _ (String _ ""))).
    reflexivity.
  - change (length (a :: b :: c :: r)) with (3 + length r)%nat in M.
    rewrite <- (Nat.Div0.mod_add (length r) 1 3) in IH.
    destruct IH as (s & E); [ rewrite <- M; f_equal; lia | ].
    cbn [Crypto.btoa]. rewrite E.
    eexists (String _ (String _ (String _ (String _ s)))). reflexivity.
Qed.

(** X17.  Whatever the payload and the key, as long as the key is not
    empty (the platform refuses to import an empty HMAC key), the signature
    is 44 characters long, is made of the letters, digits, plus and slash
    of the standard base64 alphabet and the padding sign, and ends in the
    padding sign. *)
Theorem X17_signature_shape (payload key : string) :
  key <> "" ->
  String.length (hmacB64 payload key) = 44%nat
  /\ (forall c, JS.mentions c (hmacB64 payload key) = true ->
                JS.mentions c Crypto.b64_text = true)
  /\ exists s, hmacB64 payload key = s ++ "=".
Proof.
  intros _. unfold hmacB64. split; [ | split ].
  - now rewrite length_btoa, length_hmac_sha256.
  - intros c. apply btoa_standard.
  - apply btoa_one_pad. now rewrite length_hmac_sha256.
Qed.

Lemma X17_signature_shape_witness :
  String.length (hmacB64 "contract=pilotX" "testkey") = 44%nat
  /\ (forall c, JS.mentions c (hmacB64 "contract=pilotX" "testkey") = true ->
                JS.mentions c Crypto.b64_text = true)
  /\ exists s, hmacB64 "contract=pilotX" "testkey" = s ++ "=".
Proof.
  apply (X17_signature_shape "contract=pilotX" "testkey"). discriminate.
Defined.


(** Reading back a printed integer. *)
Lemma digits_acc (d : Decimal.uint) (p : positive) :
  JS.digits_value (Zpos p) (NilEmpty.string_of_uint d)
  = (Zpos (Pos.of_uint_acc d p), "").
Proof.
  revert p. induction d; intros p; cbn [NilEmpty.string_of_uint];
    [reflexivity | .. ];
    cbn [JS.digits_value]; cbv [JS.is_digit]; simpl N_of_ascii;
    cbv iota beta; simpl andb; cbv iota;
    cbn [Pos.of_uint_acc]; rewrite <- IHd; f_equal; simpl Z.of_N; lia.
Qed.

Lemma digits_zero (d : Decimal.uint) :
  JS.digits_value 0 (NilEmpty.string_of_uint d) = (Z.of_uint d, "").
Proof.
  unfold Z.of_uint.
  induction d; cbn [NilEmpty.string_of_uint]; [reflexivity | .. ];
    cbn [JS.digits_value]; cbv [JS.is_digit]; simpl N_of_ascii;
    cbv iota beta; simpl andb; cbv iota; cbn [Pos.of_uint];
    [ exact IHd | .. ];
    simpl Z.of_N; simpl Z.add; simpl Z.sub; apply digits_acc.
Qed.

Lemma parseInt10_digit_start (c : ascii) (rest : string) :
  JS.is_digit c = true ->
  JS.parseInt10 (String c rest)
  = Some (fst (JS.digits_value 0 (String c rest))).
Proof.
  intros D. unfold JS.parseInt10. cbn [JS.trimStart].
  assert (W : JS.is_ws c = false).
  { destruct c as [[] [] [] [] [] [] [] []]; try reflexivity;
      discriminate D. }
  rewrite W.
  destruct c as [[] [] [] [] [] [] [] []]; try discriminate D;
    reflexivity.
Qed.

Lemma parseInt10_uint (d : Decimal.uint) :
  JS.parseInt10 (NilZero.string_of_uint d) = Some (Z.of_uint d).
Proof.
  destruct d; [reflexivity | .. ];
    unfold NilZero.string_of_uint;
    match goal with
    | |- JS.parseInt10 (NilEmpty.string_of_uint ?x) = _ =>
        pose proof (digits_zero x) as E
    end;
    cbn [NilEmpty.string_of_uint] in *;
    rewrite parseInt10_digit_start by reflexivity;
    now rewrite E.
Qed.

Lemma parseInt10_num_to_string (z : Z) :
  JS.parseInt10 (JS.num_to_string z) = Some z.
Proof.
  unfold JS.num_to_string. rewrite <- (DecimalZ.of_to z) at 2.
  destruct (Z.to_int z) as [d|d]; unfold NilZero.string_of_int.
  - apply parseInt10_uint.
  - pose proof (parseInt10_uint d) as E. cbn [Z.of_int].
    unfold JS.parseInt10 in *. cbn [JS.trimStart].
    change (JS.is_ws "-") with false. cbv iota.
    destruct (NilZero.string_of_uint d) as [|c s] eqn:S.
    + discriminate E.
    + assert (T : JS.trimStart (String c s) = String c s).
      { cbn [JS.trimStart] in *. destruct (JS.is_ws c) eqn:W; [ | reflexivity ].
        exfalso. destruct d; cbn in S; inversion S; subst; discriminate W. }
      rewrite T in E.
      assert (N : c <> "-"%char /\ c <> "+"%char).
      { destruct d; cbn in S; inversion S; subst; split; discriminate. }
      destruct N as [N1 N2].
      assert (E' : (if JS.is_digit c
                    then Some (fst (JS.digits_value 0 (String c s)))
                    else None) = Some (Z.of_uint d)).
      { revert E. clear -N1 N2.
        destruct c as [[] [] [] [] [] [] [] []]; try congruence;
          intros E; exact E. }
      destruct (JS.is_digit c); [ | discriminate E' ].
      do 2 f_equal. now injection E'.
Qed.

(** X18.  A Content-Length written as a plain decimal integer comes back as
    the bytes of the receipt: for a 200 response to an LLM endpoint whose
    Content-Length is the decimal text of a number below 2^53, the receipt
    says bytes= followed by that same text, and the body is not read.  The
    policy URLs are header text, so that the link stage does not throw. *)
Theorem X18_content_length_is_the_receipt_bytes
    (env : Env) (w : World) (request : Request) (oresp : Response)
    (key : string) (n : Z) :
  isLLMEndpoint request = true ->
  RECEIPT_HMAC_KEY env = Some key ->
  key <> "" ->
  policy_urls_valid env = true ->
  origin_answers env w request oresp ->
  status oresp = 200%Z ->
  (0 <= n < 2 ^ 53)%Z ->
  Headers.get "Content-Length" (headers oresp) = Some (JS.num_to_string n) ->
  exists resp,
    handle env w request = ([OriginFetch request], Some resp)
    /\ Headers.get "AI-Usage-Receipt" (headers resp)
       = Some (let payload :=
                 "contract="
                   ++ JS.or_else
                        (Headers.get "X-AI-Contract" (req_headers request)) ""
                   ++ "; status=200; bytes=" ++ JS.num_to_string n
                   ++ "; etag=" ++ dq
                   ++ Regex.replace_all false re_quote ""
                        (receipt_etag (headers oresp))
                   ++ dq ++ "; ts=" ++ clock w in
               payload ++ "; sig=" ++ hmacB64 payload key).
Proof.
  intros L K Kt _ OA St _ CL.
  assert (B : receipt_bytes oresp (headers oresp) [OriginFetch request]
              = (([OriginFetch request] ++ [])%list, Some n)).
  { unfold receipt_bytes. rewrite St, CL. simpl Z.eqb. cbv iota.
    pose proof (parseInt10_num_to_string n) as P.
    destruct (JS.truthy (JS.num_to_string n)) eqn:T.
    - now rewrite P.
    - unfold JS.truthy in T. apply negb_false_iff, String.eqb_eq in T.
      rewrite T in P. discriminate P. }
  destruct (receipt_of_forwarded env w request oresp key L K Kt n [] OA B)
    as (resp & H & G).
  exists resp. split; [exact H | ]. rewrite G, St. reflexivity.
Qed.

Lemma X18_content_length_is_the_receipt_bytes_witness :
  exists resp,
    handle Sample.env_open (Sample.world_of Cases.resp_vary) Sample.req_llm
      = ([OriginFetch Sample.req_llm], Some resp)
    /\ Headers.get "AI-Usage-Receipt" (headers resp)
       = Some (let payload :=
                 "contract=pilotX; status=200; bytes=4827; etag=" ++ dq
                   ++ "v1" ++ dq ++ "; ts=2025-10-16T12:34:56.000Z" in
               payload ++ "; sig=" ++ hmacB64 payload "testkey").
Proof.
  destruct (X18_content_length_is_the_receipt_bytes Sample.env_open
              (Sample.world_of Cases.resp_vary) Sample.req_llm Cases.resp_vary
              "testkey" 4827) as (resp & H & G);
    try reflexivity; try discriminate.
  - split; [ vm_compute; auto | reflexivity ].
  - lia.
  - exists resp. split; [exact H | ]. rewrite G. vm_compute. reflexivity.
Defined.
